(** * GitStorage: a shallow embedding of [src/github-storage.ts]

    The class [GitStorage] wraps four Octokit endpoints
    ([repos.get], [repos.getContent], [repos.createOrUpdateFileContents],
    [repos.deleteFile]) and a handful of browser helpers.  The remote
    service is an arbitrary state transformer; every request the class
    issues is appended to a trace, so that statements about "the request
    issued" are statements about that trace.

    Strings are sequences of 8-bit characters: enough for URLs, base64
    text and the binary strings of [atob]. *)

From Stdlib Require Import String Ascii List Bool Arith NArith ZArith Lia.
Import ListNotations.
Open Scope string_scope.

(** ** JavaScript values *)

Module Js.

(** [!!s] for a string. *)
Definition truthy_str (s : string) : bool := negb (String.eqb s "").

(** [!!v] for a value of type [string | undefined]. *)
Definition truthy (v : option string) : bool :=
  match v with
  | Some s => truthy_str s
  | None => false
  end.

(** [v || d] *)
Definition or (v : option string) (d : string) : string :=
  match v with
  | Some s => if truthy_str s then s else d
  | None => d
  end.

(** [v ?? d] *)
Definition nullish (v : option string) (d : string) : string :=
  match v with
  | Some s => s
  | None => d
  end.

(** A parameter declared as [x = d]: the default applies to [undefined] only. *)
Definition default_param (v : option string) (d : string) : string :=
  nullish v d.

(** Errors that can be thrown while a method runs. *)
Inductive error : Type :=
| Error (msg : string)                      (* [new Error(msg)] of the class *)
| TypeError (msg : string)                  (* property read on null/undefined *)
| InvalidCharacterError                     (* [atob] on malformed input *)
| SyntaxError                               (* [new RegExp] on a bad source *)
| RequestError (status : nat) (msg : string). (* a rejected Octokit request *)

Inductive result (A : Type) : Type :=
| Ok (a : A)
| Throw (e : error).
Arguments Ok {A} a.
Arguments Throw {A} e.

End Js.
Import Js.

(** ** The error taxonomy of the specification *)

Inductive failure : Type :=
| InvalidArgument
| NotFound
| ReadError
| RemoteFailure
| HostFailure.

Definition classify (e : error) : failure :=
  match e with
  | Error msg =>
      if String.eqb msg "Branch name cannot be empty" then InvalidArgument
      else if String.eqb msg "v3 requires name and namespace" then InvalidArgument
      else if String.eqb msg "v5 requires name and namespace" then InvalidArgument
      else if String.eqb msg "File not found" then NotFound
      else if String.eqb msg "File read error" then ReadError
      else HostFailure
  | RequestError _ _ => RemoteFailure
  | TypeError _ | InvalidCharacterError | SyntaxError => HostFailure
  end.

(** ** Requests and responses *)

(** The object literal handed to an Octokit endpoint: its keys in order. *)
Definition params := list (string * string).

Fixpoint param (k : string) (p : params) : option string :=
  match p with
  | [] => None
  | (k', v) :: p' => if String.eqb k k' then Some v else param k p'
  end.

Inductive call : Type :=
| ReposGet (p : params)
| ReposGetContent (p : params)
| ReposCreateOrUpdateFileContents (p : params)
| ReposDeleteFile (p : params).

Definition is_delete (c : call) : bool :=
  match c with ReposDeleteFile _ => true | _ => false end.

(** One entry of a content response; every property may be missing. *)
Record entry : Type := {
  e_path : option string;
  e_sha : option string;
  e_encoding : option string;
  e_content : option string
}.

(** [res.data] of [repos.getContent]. *)
Inductive content_data : Type :=
| DataArray (l : list entry)      (* a directory listing: [Array.isArray] holds *)
| DataObject (e : entry)          (* a single object *)
| DataNullish.                    (* null or undefined *)

(** Opaque JSON bodies. *)
Definition json := string.

Record response : Type := {
  r_data : json;
  r_headers : list (string * string)
}.

(** The remote service: each endpoint reads and updates a world. *)
Record remote (World : Type) : Type := {
  repos_get : World -> params -> result response * World;
  repos_getContent : World -> params -> result content_data * World;
  repos_createOrUpdateFileContents : World -> params -> result json * World;
  repos_deleteFile : World -> params -> result json * World
}.
Arguments repos_get {World}.
Arguments repos_getContent {World}.
Arguments repos_createOrUpdateFileContents {World}.
Arguments repos_deleteFile {World}.

(** ** The handle *)

Record options : Type := {
  opt_token : option string;
  opt_defaultBranch : option string
}.

Record GitStorage : Type := {
  octokit : option string;        (* the [auth] option of the Octokit instance *)
  owner : string;
  repo : string;
  token : option string;
  defaultBranch : string
}.

Definition set_defaultBranch (h : GitStorage) (b : string) : GitStorage :=
  {| octokit := octokit h; owner := owner h; repo := repo h;
     token := token h; defaultBranch := b |}.

(** [options?.token] and [options?.defaultBranch] *)
Definition opt_chain {A} (o : option options) (f : options -> option A) : option A :=
  match o with
  | Some x => f x
  | None => None
  end.

Definition constructor (owner repo : string) (o : option options) : GitStorage :=
  let token := opt_chain o opt_token in
  {| octokit := if truthy token then token else None;
     owner := owner;
     repo := repo;
     token := token;
     defaultBranch := Js.or (opt_chain o opt_defaultBranch) "main" |}.

Definition setDefaultBranch (h : GitStorage) (branch : string)
  : result unit * GitStorage :=
  if negb (truthy_str branch)
  then (Throw (Error "Branch name cannot be empty"), h)
  else (Ok tt, set_defaultBranch h branch).

(** ** Asynchronous methods: a state and exception monad over the trace *)

Section Facade.

Variable World : Type.
Variable api : remote World.

Record state : Type := {
  world : World;
  trace : list call
}.

Definition M (A : Type) : Type := state -> result A * state.

Definition ret {A} (a : A) : M A := fun st => (Ok a, st).

Definition throw {A} (e : error) : M A := fun st => (Throw e, st).

Definition bind {A B} (m : M A) (k : A -> M B) : M B :=
  fun st =>
    match m st with
    | (Ok a, st') => k a st'
    | (Throw e, st') => (Throw e, st')
    end.

Definition try_catch {A} (m : M A) (handler : error -> M A) : M A :=
  fun st =>
    match m st with
    | (Ok a, st') => (Ok a, st')
    | (Throw e, st') => handler e st'
    end.

(** Awaiting an endpoint: log the call, let the remote answer. *)
Definition request {A} (endpoint : World -> params -> result A * World)
    (tag : params -> call) (p : params) : M A :=
  fun st =>
    let (r, w) := endpoint (world st) p in
    (r, {| world := w; trace := trace st ++ [tag p] |}).

Notation "x <- m ;; k" := (bind m (fun x => k))
  (at level 61, m at next level, right associativity).

Definition getRepoInfo (h : GitStorage) : M response :=
  request (repos_get api) ReposGet
    [("owner", owner h); ("repo", repo h)].

Definition listFiles (h : GitStorage) (folder : string) (branch : option string)
  : M (list entry) :=
  let branch := default_param branch "main" in
  data <- request (repos_getContent api) ReposGetContent
            [("owner", owner h); ("repo", repo h);
             ("path", folder); ("ref", branch)] ;;
  ret (match data with DataArray l => l | _ => [] end).

(** [data?.sha] *)
Definition data_sha (data : content_data) : option string :=
  match data with
  | DataObject e => e_sha e
  | DataArray _ => None
  | DataNullish => None
  end.

Definition getFileSha (h : GitStorage) (path : string) (branch : option string)
  : M (option string) :=
  try_catch
    (let useBranch := Js.or branch (defaultBranch h) in
     data <- request (repos_getContent api) ReposGetContent
               [("owner", owner h); ("repo", repo h);
                ("path", path); ("ref", useBranch)] ;;
     ret (data_sha data))
    (fun _ => ret None).

(** [...(sha ? { sha } : {})] *)
Definition spread_sha (sha : option string) : params :=
  match sha with
  | Some s => if truthy_str s then [("sha", s)] else []
  | None => []
  end.

Definition saveFile (h : GitStorage) (base64 path : string)
    (message branch : option string) (skipCheck : bool) : M json :=
  let useBranch := Js.or branch (defaultBranch h) in
  sha <- (if negb skipCheck then getFileSha h path branch else ret None) ;;
  let commitMsg :=
    nullish message ((if truthy sha then "Update" else "Create") ++ " " ++ path) in
  request (repos_createOrUpdateFileContents api) ReposCreateOrUpdateFileContents
    ([("owner", owner h); ("repo", repo h); ("path", path);
      ("message", commitMsg); ("content", base64)]
     ++ spread_sha sha
     ++ [("useBranch", useBranch)])%list.

(** [data.encoding]: reading a property of null throws. *)
Definition downloadFile (h : GitStorage) (path : string) (branch : option string)
  : M (option content_data) :=
  let branch := default_param branch "main" in
  data <- request (repos_getContent api) ReposGetContent
            [("owner", owner h); ("repo", repo h);
             ("path", path); ("ref", branch)] ;;
  match data with
  | DataNullish => throw (TypeError "Cannot read properties of null")
  | DataArray _ => ret None
  | DataObject e =>
      match e_encoding e with
      | Some enc => if String.eqb enc "base64" then ret (Some data) else ret None
      | None => ret None
      end
  end.

Record deletion : Type := {
  d_path : string;
  d_deleted : bool
}.

Definition deleteFile (h : GitStorage) (path : string) (branch : option string)
  : M deletion :=
  let useBranch := Js.or branch (defaultBranch h) in
  sha <- getFileSha h path branch ;;
  match sha with
  | Some s =>
      if negb (truthy_str s) then throw (Error "File not found")
      else
        _ <- request (repos_deleteFile api) ReposDeleteFile
               [("owner", owner h); ("repo", repo h); ("path", path);
                ("message", "Delete " ++ path); ("sha", s);
                ("useBranch", useBranch)] ;;
        ret {| d_path := path; d_deleted := true |}
  | None => throw (Error "File not found")
  end.

End Facade.

Arguments world {World}.
Arguments trace {World}.
Arguments ret {World A}.
Arguments throw {World A}.
Arguments bind {World A B}.
Arguments try_catch {World A}.
Arguments request {World A}.
Arguments getRepoInfo {World}.
Arguments listFiles {World}.
Arguments getFileSha {World}.
Arguments saveFile {World}.
Arguments downloadFile {World}.
Arguments deleteFile {World}.

(** ** Host functions of the browser

    [FileReader.readAsDataURL], [atob] and [String.prototype.split] are not
    part of the class; they are written out here after their standards
    (RFC 4648 for the alphabet, the forgiving-base64 decoder of the WHATWG
    Infra standard for [atob]) so that the two conversion methods can be
    run on concrete files. *)

Module Host.

Local Open Scope N_scope.

Definition LF : ascii := "010"%char.
Definition CR : ascii := "013"%char.

Definition alphabet : string :=
  "ABCDEFGHIJKLMNOPQRSTUVWXYZabcdefghijklmnopqrstuvwxyz0123456789+/".

(** The character of a 6-bit value. *)
Definition b64_char (n : N) : ascii :=
  match String.get (N.to_nat n) alphabet with
  | Some c => c
  | None => "="%char
  end.

(** The 6-bit value of a character of the alphabet. *)
Definition b64_index (c : ascii) : option N :=
  let n := N_of_ascii c in
  if (65 <=? n) && (n <=? 90) then Some (n - 65)
  else if (97 <=? n) && (n <=? 122) then Some (n - 71)
  else if (48 <=? n) && (n <=? 57) then Some (n + 4)
  else if n =? 43 then Some 62
  else if n =? 47 then Some 63
  else None.

(** Three bytes give four 6-bit values; a rest of one or two bytes gives
    two or three, the missing bits being zero. *)
Fixpoint sextets (bs : list N) : list N :=
  match bs with
  | a :: b :: c :: rest =>
      a / 4 :: (a mod 4) * 16 + b / 16 :: (b mod 16) * 4 + c / 64 :: c mod 64
        :: sextets rest
  | [a; b] => [a / 4; (a mod 4) * 16 + b / 16; (b mod 16) * 4]
  | [a] => [a / 4; (a mod 4) * 16]
  | [] => []
  end.

Definition padding (len : nat) : list ascii :=
  match Nat.modulo len 3%nat with
  | 1%nat => ["="%char; "="%char]
  | 2%nat => ["="%char]
  | _ => []
  end.

(** Base64 of a byte sequence, with padding. *)
Definition base64_encode (bs : list N) : string :=
  string_of_list_ascii (map b64_char (sextets bs) ++ padding (length bs)).

(** Four 6-bit values give three bytes; a rest of two or three gives one
    or two, the surplus bits being dropped. *)
Fixpoint unsextets (l : list N) : list N :=
  match l with
  | s0 :: s1 :: s2 :: s3 :: rest =>
      s0 * 4 + s1 / 16 :: (s1 mod 16) * 16 + s2 / 4 :: (s2 mod 4) * 64 + s3
        :: unsextets rest
  | [s0; s1; s2] => [s0 * 4 + s1 / 16; (s1 mod 16) * 16 + s2 / 4]
  | [s0; s1] => [s0 * 4 + s1 / 16]
  | _ => []
  end.

Definition is_ascii_whitespace (c : ascii) : bool :=
  let n := N_of_ascii c in
  (n =? 9) || (n =? 10) || (n =? 12) || (n =? 13) || (n =? 32).

Definition is_pad (c : ascii) : bool := Ascii.eqb c "="%char.

(** Remove one or two trailing [=]. *)
Definition strip_padding (l : list ascii) : list ascii :=
  match rev l with
  | c1 :: c2 :: r =>
      if is_pad c1 then (if is_pad c2 then rev r else rev (c2 :: r)) else l
  | [c1] => if is_pad c1 then [] else l
  | [] => l
  end.

Fixpoint indices (l : list ascii) : option (list N) :=
  match l with
  | [] => Some []
  | c :: l' =>
      match b64_index c, indices l' with
      | Some n, Some ns => Some (n :: ns)
      | _, _ => None
      end
  end.

(** [atob]: the result is a binary string, one character per byte. *)
Definition atob (data : string) : result string :=
  let l := filter (fun c => negb (is_ascii_whitespace c)) (list_ascii_of_string data) in
  let l := if Nat.eqb (Nat.modulo (length l) 4) 0 then strip_padding l else l in
  if Nat.eqb (Nat.modulo (length l) 4) 1 then Throw InvalidCharacterError
  else
    match indices l with
    | Some ns => Ok (string_of_list_ascii (map ascii_of_N (unsextets ns)))
    | None => Throw InvalidCharacterError
    end.

(** [s.split(sep)] for a one-character separator. *)
Fixpoint split (sep : ascii) (s : string) : list string :=
  match s with
  | EmptyString => [EmptyString]
  | String c s' =>
      if Ascii.eqb c sep then EmptyString :: split sep s'
      else
        match split sep s' with
        | piece :: pieces => String c piece :: pieces
        | [] => [String c EmptyString]
        end
  end.

(** [s.replace(/\r?\n/g, '')] *)
Fixpoint replace_newlines (s : string) : string :=
  match s with
  | EmptyString => EmptyString
  | String c s' =>
      if Ascii.eqb c LF then replace_newlines s'
      else
        match s' with
        | String c' s'' =>
            if Ascii.eqb c CR && Ascii.eqb c' LF then replace_newlines s''
            else String c (replace_newlines s')
        | EmptyString => String c EmptyString
        end
  end.

(** A browser [File]: its media type and its bytes (each below 256), or
    no bytes when reading it fails. *)
Record File : Type := {
  file_type : string;
  file_bytes : option (list N)
}.

(** [reader.result] after [readAsDataURL], or the error event. *)
Definition readAsDataURL (f : File) : option string :=
  match file_bytes f with
  | Some bs => Some ("data:" ++ file_type f ++ ";base64," ++ base64_encode bs)
  | None => None
  end.

(** A [Uint8Array]: storing a number keeps its low eight bits. *)
Definition Uint8Array := list N.

Definition new_Uint8Array (len : nat) : Uint8Array := repeat 0 len.

Fixpoint store (a : Uint8Array) (i : nat) (v : N) : Uint8Array :=
  match a, i with
  | [], _ => []
  | _ :: a', O => v mod 256 :: a'
  | x :: a', S i' => x :: store a' i' v
  end.

(** [s.charCodeAt(i)] for [i] inside the string. *)
Definition charCodeAt (s : string) (i : nat) : N :=
  match String.get i s with
  | Some c => N_of_ascii c
  | None => 0
  end.

End Host.
Import Host.

(** ** The conversion methods *)

Definition fileToBase64 (file : File) : result string :=
  match readAsDataURL file with
  | None => Throw (Error "File read error")
  | Some result => Ok (Js.or (nth_error (split ","%char result) 1) "")
  end.

(** [for (let i = 0; i < len; i++) bytes[i] = binary.charCodeAt(i)] *)
Fixpoint fill (binary : string) (bytes : Uint8Array) (i n : nat) : Uint8Array :=
  match n with
  | O => bytes
  | S n' => fill binary (store bytes i (charCodeAt binary i)) (S i) n'
  end.

(** The bytes of the [Blob] made from the array. *)
Definition base64ToBlob (base64 : string) : result (list N) :=
  match atob (replace_newlines base64) with
  | Throw e => Throw e
  | Ok binary =>
      let len := String.length binary in
      let bytes := new_Uint8Array len in
      Ok (fill binary bytes 0 len)
  end.

(** ** Regular expressions

    [getPathFromDownloadUrl] builds its pattern by string interpolation and
    hands it to [new RegExp].  The fragment of the pattern language
    modelled here is the one the template itself uses: plain characters,
    an escaped punctuation character, [.], the class [[^/]], the greedy
    [+] after a one-character atom, and capture groups.  Any other syntax
    makes [compile] answer [None]. *)

Module Regex.

Inductive cls : Type :=
| Lit (c : ascii)
| Dot
| NotSlash.

Definition accepts (k : cls) (c : ascii) : bool :=
  match k with
  | Lit a => Ascii.eqb a c
  | Dot => negb (Ascii.eqb c LF || Ascii.eqb c CR)
  | NotSlash => negb (Ascii.eqb c "/"%char)
  end.

Inductive token : Type :=
| TAtom (k : cls)
| TPlus
| TOpen
| TClose.

Definition is_alnum (c : ascii) : bool :=
  let n := N_of_ascii c in
  ((48 <=? n) && (n <=? 57) || (65 <=? n) && (n <=? 90)
   || (97 <=? n) && (n <=? 122))%N.

(** Characters that are syntax when they stand alone. *)
Definition is_syntax (c : ascii) : bool :=
  existsb (Ascii.eqb c)
    (list_ascii_of_string "\^$.*+?()[]{}|").

Fixpoint tokens (s : string) : option (list token) :=
  match s with
  | EmptyString => Some []
  | String c s' =>
      if Ascii.eqb c "\"%char then
        match s' with
        | String e s'' =>
            if is_alnum e then None
            else option_map (cons (TAtom (Lit e))) (tokens s'')
        | EmptyString => None
        end
      else if Ascii.eqb c "["%char then
        match s' with
        | String "^" (String "/" (String "]" s'')) =>
            option_map (cons (TAtom NotSlash)) (tokens s'')
        | _ => None
        end
      else if Ascii.eqb c "."%char then option_map (cons (TAtom Dot)) (tokens s')
      else if Ascii.eqb c "+"%char then option_map (cons TPlus) (tokens s')
      else if Ascii.eqb c "("%char then
        match s' with
        | String "?" _ => None
        | _ => option_map (cons TOpen) (tokens s')
        end
      else if Ascii.eqb c ")"%char then option_map (cons TClose) (tokens s')
      else if is_syntax c then None
      else option_map (cons (TAtom (Lit c))) (tokens s')
  end.

Inductive item : Type :=
| One (k : cls)
| Many (k : cls)          (* [k+], greedy *)
| Open (n : nat)          (* start of capture group [n] *)
| Close (n : nat).

(** Groups are numbered by their opening parenthesis, from 1;
    [opened] is the stack of groups not yet closed. *)
Fixpoint items (ts : list token) (next : nat) (opened : list nat)
  : option (list item) :=
  match ts with
  | [] => match opened with [] => Some [] | _ => None end
  | TAtom k :: TPlus :: ts' => option_map (cons (Many k)) (items ts' next opened)
  | TAtom k :: ts' => option_map (cons (One k)) (items ts' next opened)
  | TPlus :: _ => None
  | TOpen :: ts' => option_map (cons (Open next)) (items ts' (S next) (next :: opened))
  | TClose :: TPlus :: _ => None
  | TClose :: ts' =>
      match opened with
      | n :: opened' => option_map (cons (Close n)) (items ts' next opened')
      | [] => None
      end
  end.

Definition compile (source : string) : option (list item) :=
  match tokens source with
  | Some ts => items ts 1 []
  | None => None
  end.

(** Where capture group 1 starts and ends, as the input left at each point. *)
Record captures : Type := {
  g_start : option string;
  g_end : option string
}.

Definition no_captures : captures := {| g_start := None; g_end := None |}.

(** Backtracking match of [r] at the start of [s]. *)
Fixpoint match_here (r : list item) (s : string) (g : captures) : option captures :=
  match r with
  | [] => Some g
  | One k :: r' =>
      match s with
      | String c s' => if accepts k c then match_here r' s' g else None
      | EmptyString => None
      end
  | Many k :: r' =>
      (fix many (s : string) : option captures :=
         match s with
         | String c s' =>
             if accepts k c then
               match many s' with
               | Some g' => Some g'
               | None => match_here r' s' g
               end
             else None
         | EmptyString => None
         end) s
  | Open n :: r' =>
      match_here r' s
        (if Nat.eqb n 1 then {| g_start := Some s; g_end := None |} else g)
  | Close n :: r' =>
      match_here r' s
        (if Nat.eqb n 1 then {| g_start := g_start g; g_end := Some s |} else g)
  end.

(** The leftmost match anywhere in [s]. *)
Fixpoint search (r : list item) (s : string) : option captures :=
  match match_here r s no_captures with
  | Some g => Some g
  | None =>
      match s with
      | String _ s' => search r s'
      | EmptyString => None
      end
  end.

(** [match[1]] *)
Definition group1 (g : captures) : option string :=
  match g_start g, g_end g with
  | Some s, Some e => Some (substring 0 (String.length s - String.length e) s)
  | _, _ => None
  end.

End Regex.

(** ** URL helper *)

Definition download_url_pattern (h : GitStorage) : string :=
  "https://raw\.githubusercontent\.com/" ++ owner h ++ "/" ++ repo h
    ++ "/[^/]+/(.+)".

(** [None]: the pattern lies outside the modelled fragment.
    [Some (Ok None)]: the method returns [null]. *)
Definition getPathFromDownloadUrl (h : GitStorage) (url : string)
  : option (result (option string)) :=
  match Regex.compile (download_url_pattern h) with
  | None => None
  | Some regex =>
      match Regex.search regex url with
      | None => Some (Ok None)
      | Some m =>
          match Regex.group1 m with
          | Some g => Some (Ok (Some (hd EmptyString (split "?"%char g))))
          | None => Some (Throw (TypeError "Cannot read properties of undefined"))
          end
      end
  end.

(** ** UUID helper *)

Inductive uuid_version : Type := v1 | v3 | v4 | v5.

(** The [uuid] package; [seed] stands for the clock and the random source. *)
Record uuid_package : Type := {
  uuidv1 : nat -> string;
  uuidv3 : string -> string -> string;
  uuidv4 : nat -> string;
  uuidv5 : string -> string -> string
}.

Definition generateUuid (pkg : uuid_package) (seed : nat)
    (version : uuid_version) (name namespace : option string) : result string :=
  match version with
  | v1 => Ok (uuidv1 pkg seed)
  | v3 =>
      if negb (truthy name) || negb (truthy namespace)
      then Throw (Error "v3 requires name and namespace")
      else Ok (uuidv3 pkg (nullish name "") (nullish namespace ""))
  | v4 => Ok (uuidv4 pkg seed)
  | v5 =>
      if negb (truthy name) || negb (truthy namespace)
      then Throw (Error "v5 requires name and namespace")
      else Ok (uuidv5 pkg (nullish name "") (nullish namespace ""))
  end.

(** ** The public interface as a transition system

    One constructor per public method.  [exec] runs a method and keeps what
    it leaves behind: the fields of the handle and the state of the remote
    with the trace.  Only [setDefaultBranch] assigns to a field. *)

Inductive method : Type :=
| SetDefaultBranch (branch : string)
| GetRepoInfo
| ListFiles (folder : string) (branch : option string)
| GetFileSha (path : string) (branch : option string)
| SaveFile (base64 path : string) (message branch : option string) (skipCheck : bool)
| DownloadFile (path : string) (branch : option string)
| FileToBase64 (file : File)
| Base64ToBlob (base64 : string)
| DeleteFile (path : string) (branch : option string)
| GetPathFromDownloadUrl (url : string)
| GenerateUuid (version : uuid_version) (name namespace : option string).

Section Interface.

Variable World : Type.
Variable api : remote World.

Definition exec (h : GitStorage) (m : method) (st : state World)
  : GitStorage * state World :=
  match m with
  | SetDefaultBranch branch => (snd (setDefaultBranch h branch), st)
  | GetRepoInfo => (h, snd (getRepoInfo api h st))
  | ListFiles folder branch => (h, snd (listFiles api h folder branch st))
  | GetFileSha path branch => (h, snd (getFileSha api h path branch st))
  | SaveFile base64 path message branch skipCheck =>
      (h, snd (saveFile api h base64 path message branch skipCheck st))
  | DownloadFile path branch => (h, snd (downloadFile api h path branch st))
  | DeleteFile path branch => (h, snd (deleteFile api h path branch st))
  | FileToBase64 _ | Base64ToBlob _ | GetPathFromDownloadUrl _
  | GenerateUuid _ _ _ => (h, st)
  end.

(** The handles a caller can hold: made by the constructor, then used. *)
Inductive reachable : GitStorage -> Prop :=
| reach_new (owner repo : string) (o : option options) :
    reachable (constructor owner repo o)
| reach_exec (h : GitStorage) (m : method) (st : state World) :
    reachable h -> reachable (fst (exec h m st)).

End Interface.

Arguments exec {World}.
Arguments reachable {World}.
Arguments reach_new {World}.
Arguments reach_exec {World}.

(** ** A remote for running the methods on concrete inputs

    A world is the list of files of one branch-less store: path and
    version marker.  Reads answer with the entry of the path, writes and
    deletions are refused unless [writable] is set. *)

Module Sample.

Record store : Type := {
  files : list (string * string);
  writable : bool
}.

Definition lookup (w : store) (p : params) : option string :=
  match param "path" p with
  | Some path => param path (files w)
  | None => None
  end.

Definition get_content (w : store) (p : params) : result content_data * store :=
  match lookup w p with
  | Some sha =>
      (Ok (DataObject {| e_path := param "path" p; e_sha := Some sha;
                         e_encoding := Some "base64"; e_content := Some "" |}), w)
  | None => (Throw (RequestError 404 "Not Found"), w)
  end.

Definition put_content (w : store) (p : params) : result json * store :=
  if writable w then (Ok "{}", w)
  else (Throw (RequestError 401 "Requires authentication"), w).

Definition get_repo (w : store) (p : params) : result response * store :=
  (Ok {| r_data := "{}"; r_headers := [] |}, w).

Definition api : remote store := {|
  repos_get := get_repo;
  repos_getContent := get_content;
  repos_createOrUpdateFileContents := put_content;
  repos_deleteFile := put_content
|}.

Definition start (fs : list (string * string)) (can_write : bool) : state store :=
  {| world := {| files := fs; writable := can_write |}; trace := [] |}.

Definition handle : GitStorage :=
  constructor "octo" "store"
    (Some {| opt_token := None; opt_defaultBranch := Some "dev" |}).

End Sample.

(** ** Vocabulary of the statements *)

(** The calls a run has added to the trace it started from. *)
Definition issued {World} (before after : state World) : list call :=
  skipn (length (trace before)) (trace after).

(** The read request of the version-marker probe. *)
Definition probe_params (h : GitStorage) (path : string) (branch : option string)
  : params :=
  [("owner", owner h); ("repo", repo h); ("path", path);
   ("ref", Js.or branch (defaultBranch h))].

(** The read request of [listFiles] and [downloadFile]. *)
Definition read_params (h : GitStorage) (path : string) (branch : option string)
  : params :=
  [("owner", owner h); ("repo", repo h); ("path", path);
   ("ref", default_param branch "main")].

(** The branch a request names: [ref] for a read, [branch] for a write or
    a deletion (the names the endpoints of the remote define). *)
Definition target_branch (c : call) : option string :=
  match c with
  | ReposGet _ => None
  | ReposGetContent p => param "ref" p
  | ReposCreateOrUpdateFileContents p => param "branch" p
  | ReposDeleteFile p => param "branch" p
  end.

(** The deletion request for a marker. *)
Definition delete_params (h : GitStorage) (path : string) (branch : option string)
    (sha : string) : params :=
  [("owner", owner h); ("repo", repo h); ("path", path);
   ("message", "Delete " ++ path); ("sha", sha);
   ("useBranch", Js.or branch (defaultBranch h))].

(** Byte sequences and sequences of 6-bit values. *)
Definition byte_sized (bs : list N) : Prop := Forall (fun b => (b < 256)%N) bs.

Definition six_bit (ns : list N) : Prop := Forall (fun n => (n < 64)%N) ns.

(** The characters of an encoding, before the padding. *)
Definition chars (bs : list N) : list ascii := map b64_char (sextets bs).

(** What the loop of [base64ToBlob] stores for a character. *)
Definition code (c : ascii) : N := (N_of_ascii c mod 256)%N.

(** [without c w]: the character [c] does not occur in [w]. *)
Definition without (c : ascii) (w : string) : Prop :=
  ~ In c (list_ascii_of_string w).

(** [line_broken payload text]: [text] is [payload] with line breaks,
    LF or CR LF, put in at any places. *)
Inductive line_broken : string -> string -> Prop :=
| lb_end : line_broken EmptyString EmptyString
| lb_keep (c : ascii) (s t : string) :
    line_broken s t -> line_broken (String c s) (String c t)
| lb_lf (s t : string) :
    line_broken s t -> line_broken s (String LF t)
| lb_crlf (s t : string) :
    line_broken s t -> line_broken s (String CR (String LF t)).

(** A name that holds no character of the pattern syntax. *)
Definition plain (w : string) : Prop :=
  Forall (fun c => Regex.is_syntax c = false) (list_ascii_of_string w).

(** The pattern items and the tokens of a word taken literally. *)
Definition lits (w : string) : list Regex.item :=
  map (fun c => Regex.One (Regex.Lit c)) (list_ascii_of_string w).

Definition atoms (w : string) : list Regex.token :=
  map (fun c => Regex.TAtom (Regex.Lit c)) (list_ascii_of_string w).

Definition starts_with_plus (ts : list Regex.token) : bool :=
  match ts with Regex.TPlus :: _ => true | _ => false end.

(** The items of [/[^/]+/(.+)], the end of the pattern. *)
Definition tail_items : list Regex.item :=
  [Regex.One (Regex.Lit "/"); Regex.Many Regex.NotSlash;
   Regex.One (Regex.Lit "/"); Regex.Open 1; Regex.Many Regex.Dot;
   Regex.Close 1].

(** The pattern of a handle whose names are taken literally. *)
Definition pattern_items (h : GitStorage) : list Regex.item :=
  (lits "https://raw.githubusercontent.com/" ++ lits (owner h)
   ++ lits "/" ++ lits (repo h) ++ tail_items)%list.

(** The raw-content URL of a file of a repository. *)
Definition raw_url (owner repo rest : string) : string :=
  "https://raw.githubusercontent.com/" ++ owner ++ "/" ++ repo ++ "/" ++ rest.

(** ** Vocabulary of the further properties *)

(** Requests that read and requests that change the repository. *)
Definition is_query (c : call) : bool :=
  match c with ReposGet _ | ReposGetContent _ => true | _ => false end.

Definition is_mutation (c : call) : bool :=
  match c with
  | ReposCreateOrUpdateFileContents _ | ReposDeleteFile _ => true
  | _ => false
  end.

Definition call_params (c : call) : params :=
  match c with
  | ReposGet p | ReposGetContent p
  | ReposCreateOrUpdateFileContents p | ReposDeleteFile p => p
  end.

(** The write request of [saveFile] for the sha it holds. *)
Definition write_params (h : GitStorage) (base64 path : string)
    (message branch sha : option string) : params :=
  ([("owner", owner h); ("repo", repo h); ("path", path);
    ("message",
     nullish message ((if truthy sha then "Update" else "Create") ++ " " ++ path));
    ("content", base64)]
   ++ spread_sha sha
   ++ [("useBranch", Js.or branch (defaultBranch h))])%list.

(** A sequence of calls on one handle, each in the state the last left. *)
Definition run_methods {World} (api : remote World) (h : GitStorage)
    (st : state World) (ms : list method) : GitStorage * state World :=
  fold_left (fun hs m => exec api (fst hs) m (snd hs)) ms (h, st).

(** The arguments of the calls of [setDefaultBranch] among [ms], in order. *)
Definition branch_arguments (ms : list method) : list string :=
  flat_map (fun m => match m with SetDefaultBranch b => [b] | _ => [] end) ms.

(** The last string of a list that is not empty. *)
Definition last_nonempty (branches : list string) : option string :=
  find truthy_str (rev branches).

(** The answer of the read of the probe shows no sha: the read failed, or
    gave a listing, null, or an object without one. *)
Definition shows_no_sha (read : result content_data) : Prop :=
  match read with
  | Ok data => data_sha data = None
  | Throw _ => True
  end.

(** * Properties *)

(** ** JavaScript values *)

Lemma truthy_str_true (s : string) : truthy_str s = true <-> s <> "".
Proof.
  unfold truthy_str. rewrite negb_true_iff.
  split; intros H.
  - intros ->. discriminate H.
  - destruct s; [congruence | reflexivity].
Qed.

Lemma truthy_str_false (s : string) : truthy_str s = false <-> s = "".
Proof.
  unfold truthy_str. rewrite negb_false_iff. apply String.eqb_eq.
Qed.

Lemma truthy_some (s : string) : s <> "" -> truthy (Some s) = true.
Proof. intros H. now apply truthy_str_true. Qed.

Lemma or_nonempty (v : option string) (d : string) : d <> "" -> Js.or v d <> "".
Proof.
  intros Hd. destruct v as [s|]; simpl; trivial.
  destruct (truthy_str s) eqn:E; trivial.
  now apply truthy_str_true.
Qed.

Lemma or_some (s d : string) : s <> "" -> Js.or (Some s) d = s.
Proof. intros H. simpl. now rewrite (proj2 (truthy_str_true s) H). Qed.

Lemma issued_app {World} (st st' : state World) (l : list call) :
  trace st' = (trace st ++ l)%list -> issued st st' = l.
Proof.
  intros E. unfold issued. rewrite E.
  rewrite skipn_app, skipn_all, Nat.sub_diag. reflexivity.
Qed.

(** ** The version-marker probe *)

Section Probe.

Context {World : Type} (api : remote World).

(** What one run of the probe does, whatever the remote answers. *)
Lemma getFileSha_run (h : GitStorage) (path : string) (branch : option string)
    (st : state World) :
  getFileSha api h path branch st =
    (Ok (match fst (repos_getContent api (world st) (probe_params h path branch)) with
         | Ok data => data_sha data
         | Throw _ => None
         end),
     {| world := snd (repos_getContent api (world st) (probe_params h path branch));
        trace := trace st ++ [ReposGetContent (probe_params h path branch)] |}).
Proof.
  unfold getFileSha, try_catch, bind, request, ret, probe_params.
  destruct (repos_getContent api (world st) _) as [[data|e] w]; reflexivity.
Qed.

Lemma getFileSha_trace (h : GitStorage) (path : string) (branch : option string)
    (st : state World) :
  trace (snd (getFileSha api h path branch st)) =
    (trace st ++ [ReposGetContent (probe_params h path branch)])%list.
Proof. rewrite getFileSha_run. reflexivity. Qed.

(** C5: the probe never raises.  It answers with some value on every
    remote and in every state; the value is the [sha] of the entry when
    the read resolves to a single file entry, and [undefined] when the
    read fails, for whatever reason the remote gives. *)
Theorem getFileSha_never_raises (h : GitStorage) (path : string)
    (branch : option string) (st : state World) :
  let read := fst (repos_getContent api (world st) (probe_params h path branch)) in
  let answer := fst (getFileSha api h path branch st) in
  (exists v, answer = Ok v)
  /\ (forall e, read = Ok (DataObject e) -> answer = Ok (e_sha e))
  /\ (forall err, read = Throw err -> answer = Ok None)
  /\ issued st (snd (getFileSha api h path branch st))
       = [ReposGetContent (probe_params h path branch)].
Proof.
  cbv zeta. rewrite getFileSha_run. cbn [fst snd].
  repeat split.
  - eexists. reflexivity.
  - intros e ->. reflexivity.
  - intros err ->. reflexivity.
  - now apply issued_app.
Qed.

End Probe.

(** ** Writing *)

Section Writing.

Context {World : Type} (api : remote World).

(** The value the probe hands to [saveFile] and [deleteFile]. *)
Lemma getFileSha_answer (h : GitStorage) (path : string) (branch : option string)
    (st : state World) :
  exists v, fst (getFileSha api h path branch st) = Ok v.
Proof. rewrite getFileSha_run. eexists. reflexivity. Qed.

(** [saveFile] with the check: the probe runs in the caller's state, the
    write in the state the probe leaves. *)
Lemma saveFile_checked_run (h : GitStorage) (base64 path : string)
    (message branch : option string) (st : state World) (sha : option string) :
  fst (getFileSha api h path branch st) = Ok sha ->
  exists p,
    p = ([("owner", owner h); ("repo", repo h); ("path", path);
          ("message", nullish message
                        ((if truthy sha then "Update" else "Create") ++ " " ++ path));
          ("content", base64)]
         ++ spread_sha sha
         ++ [("useBranch", Js.or branch (defaultBranch h))])%list
    /\ trace (snd (saveFile api h base64 path message branch false st)) =
         (trace st ++ [ReposGetContent (probe_params h path branch);
                       ReposCreateOrUpdateFileContents p])%list.
Proof.
  intros Hsha. eexists. split; [reflexivity|].
  unfold saveFile, bind. cbn [negb].
  rewrite getFileSha_run in *. cbn [fst] in Hsha. injection Hsha as Hsha.
  rewrite Hsha. unfold request. cbn [world trace].
  destruct (repos_createOrUpdateFileContents api _ _) as [r w].
  cbn [snd trace]. rewrite <- app_assoc. reflexivity.
Qed.

(** C1: with the version check and without a message of the caller,
    [saveFile] issues the probe and then exactly one write.  When the
    probe answers with a marker M the write carries the message
    "Update {path}" and the marker M; when it answers with no marker the
    write carries "Create {path}" and no marker.  A marker is a non-empty
    string. *)
Theorem saveFile_create_or_update (h : GitStorage) (base64 path : string)
    (branch : option string) (st : state World) (marker : option string) :
  fst (getFileSha api h path branch st) = Ok marker ->
  marker <> Some "" ->
  exists p,
    issued st (snd (saveFile api h base64 path None branch false st)) =
      [ReposGetContent (probe_params h path branch);
       ReposCreateOrUpdateFileContents p]
    /\ param "path" p = Some path
    /\ param "content" p = Some base64
    /\ match marker with
       | Some M =>
           param "message" p = Some ("Update " ++ path) /\ param "sha" p = Some M
       | None =>
           param "message" p = Some ("Create " ++ path) /\ param "sha" p = None
       end.
Proof.
  intros Hprobe Hmarker.
  destruct (saveFile_checked_run h base64 path None branch st marker Hprobe)
    as (p & Hp & Htrace).
  exists p. split; [now apply issued_app|].
  subst p. destruct marker as [M|].
  - assert (HM : truthy_str M = true).
    { apply truthy_str_true. congruence. }
    cbn. rewrite HM. cbn. auto.
  - cbn. auto.
Qed.

(** C10: a message of the caller that is the empty string is the message
    of the write, with or without the version check and whatever the
    probe answers; neither "Create {path}" nor "Update {path}" takes its
    place. *)
Theorem saveFile_empty_message_verbatim (h : GitStorage) (base64 path : string)
    (branch : option string) (skipCheck : bool) (st : state World) :
  exists p,
    issued st (snd (saveFile api h base64 path (Some "") branch skipCheck st)) =
      ((if skipCheck then [] else [ReposGetContent (probe_params h path branch)])
       ++ [ReposCreateOrUpdateFileContents p])%list
    /\ param "message" p = Some ""
    /\ param "message" p <> Some ("Create " ++ path)
    /\ param "message" p <> Some ("Update " ++ path).
Proof.
  destruct skipCheck.
  - eexists. split.
    + apply issued_app. unfold saveFile, bind, ret, request. cbn [negb].
      destruct (repos_createOrUpdateFileContents api _ _) as [r w].
      cbn [snd trace]. reflexivity.
    + cbn. repeat split; discriminate.
  - destruct (getFileSha_answer h path branch st) as [sha Hsha].
    destruct (saveFile_checked_run h base64 path (Some "") branch st sha Hsha)
      as (p & Hp & Htrace).
    exists p. split; [now apply issued_app|].
    subst p. cbn. repeat split; discriminate.
Qed.

End Writing.

(** ** Deleting *)

Section Deleting.

Context {World : Type} (api : remote World).

Lemma deleteFile_absent (h : GitStorage) (path : string) (branch : option string)
    (st : state World) (sha : option string) :
  fst (getFileSha api h path branch st) = Ok sha ->
  truthy sha = false ->
  deleteFile api h path branch st =
    (Throw (Error "File not found"), snd (getFileSha api h path branch st)).
Proof.
  intros Hsha Hfalsy. unfold deleteFile, bind.
  destruct (getFileSha api h path branch st) as [r st'].
  cbn [fst snd] in *. subst r.
  destruct sha as [s|]; cbn in Hfalsy; [rewrite Hfalsy|]; reflexivity.
Qed.

Lemma deleteFile_present (h : GitStorage) (path : string) (branch : option string)
    (st : state World) (M : string) :
  fst (getFileSha api h path branch st) = Ok (Some M) ->
  M <> "" ->
  let st' := snd (getFileSha api h path branch st) in
  let answer := repos_deleteFile api (world st') (delete_params h path branch M) in
  deleteFile api h path branch st =
    (match fst answer with
     | Ok _ => Ok {| d_path := path; d_deleted := true |}
     | Throw e => Throw e
     end,
     {| world := snd answer;
        trace := trace st' ++ [ReposDeleteFile (delete_params h path branch M)] |}).
Proof.
  intros Hsha HM. cbv zeta. unfold deleteFile, bind.
  destruct (getFileSha api h path branch st) as [r st'].
  cbn [fst snd] in *. subst r.
  rewrite (proj2 (truthy_str_true M) HM). cbn [negb].
  unfold request, ret, delete_params.
  destruct (repos_deleteFile api (world st') _) as [[j|e] w]; reflexivity.
Qed.

(** C2, as amended: when the probe answers with no marker, [deleteFile]
    fails with the NotFound error and issues nothing after the probe, and
    this is the only case in which it does so.  When the probe answers
    with a marker M it issues, after the probe, exactly one deletion
    request, which carries M and the message "Delete {path}"; it returns
    the record [{path, deleted: true}] when the remote accepts that
    request and passes the rejection on when the remote rejects it.  A
    marker is a non-empty string. *)
Theorem deleteFile_not_found_or_one_request (h : GitStorage) (path : string)
    (branch : option string) (st : state World) (marker : option string) :
  fst (getFileSha api h path branch st) = Ok marker ->
  marker <> Some "" ->
  let probe := ReposGetContent (probe_params h path branch) in
  let run := deleteFile api h path branch st in
  (marker = None <->
     (exists e, fst run = Throw e /\ classify e = NotFound)
     /\ existsb is_delete (issued st (snd run)) = false)
  /\ match marker with
     | None =>
         fst run = Throw (Error "File not found")
         /\ issued st (snd run) = [probe]
     | Some M =>
         exists p,
           issued st (snd run) = [probe; ReposDeleteFile p]
           /\ param "sha" p = Some M
           /\ param "message" p = Some ("Delete " ++ path)
           /\ param "path" p = Some path
           /\ fst run =
                match fst (repos_deleteFile api
                             (world (snd (getFileSha api h path branch st))) p) with
                | Ok _ => Ok {| d_path := path; d_deleted := true |}
                | Throw e => Throw e
                end
     end.
Proof.
  intros Hprobe Hmarker. cbv zeta.
  pose proof (getFileSha_trace api h path branch st) as Htrace.
  destruct marker as [M|].
  - assert (HM : M <> "") by congruence.
    rewrite (deleteFile_present h path branch st M Hprobe HM).
    cbn [fst snd].
    assert (Hissued :
      issued st
        {| world := snd (repos_deleteFile api
                           (world (snd (getFileSha api h path branch st)))
                           (delete_params h path branch M));
           trace := trace (snd (getFileSha api h path branch st))
                    ++ [ReposDeleteFile (delete_params h path branch M)] |}
      = [ReposGetContent (probe_params h path branch);
         ReposDeleteFile (delete_params h path branch M)]).
    { apply issued_app. cbn [trace]. rewrite Htrace, <- app_assoc. reflexivity. }
    split.
    + split; [discriminate|].
      intros [_ Hnone]. rewrite Hissued in Hnone. discriminate Hnone.
    + exists (delete_params h path branch M).
      split; [exact Hissued|]. cbn. auto.
  - rewrite (deleteFile_absent h path branch st None Hprobe eq_refl).
    cbn [fst snd].
    assert (Hissued : issued st (snd (getFileSha api h path branch st))
                      = [ReposGetContent (probe_params h path branch)]).
    { now apply issued_app. }
    rewrite Hissued. split.
    + split; [|reflexivity]. intros _. split; [|reflexivity].
      eexists. split; reflexivity.
    + split; reflexivity.
Qed.

End Deleting.

(** ** Reading *)

Section Reading.

Context {World : Type} (api : remote World).

(** C7: [listFiles] issues one read.  A list-shaped payload is returned
    as it is; every other payload, a single file entry among them, gives
    the empty sequence, which is neither an error nor a sequence holding
    that entry. *)
Theorem listFiles_list_or_empty (h : GitStorage) (folder : string)
    (branch : option string) (st : state World) :
  let read := fst (repos_getContent api (world st) (read_params h folder branch)) in
  let run := listFiles api h folder branch st in
  issued st (snd run) = [ReposGetContent (read_params h folder branch)]
  /\ (forall l, read = Ok (DataArray l) -> fst run = Ok l)
  /\ (forall data, read = Ok data -> (forall l, data <> DataArray l) ->
        fst run = Ok [])
  /\ (forall e, read = Ok (DataObject e) ->
        fst run = Ok [] /\ fst run <> Ok [e] /\ forall err, fst run <> Throw err).
Proof.
  cbv zeta. unfold listFiles, bind, request, ret, read_params.
  destruct (repos_getContent api (world st) _) as [[data|err] w];
    cbn [fst snd trace].
  - split; [now apply issued_app|].
    split; [intros l [= ->]; reflexivity|].
    split.
    + intros data' [= <-] Hshape.
      destruct data as [l| |]; [now elim (Hshape l)| |]; reflexivity.
    + intros e [= ->]. repeat split; discriminate.
  - split; [now apply issued_app|].
    repeat split; discriminate.
Qed.

End Reading.

(** ** The default branch *)

Section DefaultBranch.

Context {World : Type} (api : remote World).

Lemma last_issued_after_probe (st st1 st2 : state World) (c1 c2 : call) :
  trace st1 = (trace st ++ [c1])%list ->
  trace st2 = (trace st1 ++ [c2])%list ->
  issued st st2 = [c1; c2].
Proof.
  intros E1 E2. apply issued_app. rewrite E2, E1, <- app_assoc. reflexivity.
Qed.

(** What each method asks for when the branch argument is omitted: only
    the probe [getFileSha] names the default branch of the handle.
    [listFiles] and [downloadFile] name the constant "main", and the
    requests of [saveFile] and [deleteFile] carry the default branch under
    the key [useBranch], so that they name no branch at all. *)
Lemma omitted_branch_targets (h : GitStorage) (path base64 : string)
    (st : state World) :
  map target_branch (issued st (snd (getFileSha api h path None st)))
    = [Some (defaultBranch h)]
  /\ map target_branch (issued st (snd (listFiles api h path None st)))
       = [Some "main"]
  /\ map target_branch (issued st (snd (downloadFile api h path None st)))
       = [Some "main"]
  /\ map target_branch
       (issued st (snd (saveFile api h base64 path None None false st)))
       = [Some (defaultBranch h); None]
  /\ map target_branch
       (issued st (snd (saveFile api h base64 path None None true st)))
       = [None]
  /\ (forall M, fst (getFileSha api h path None st) = Ok (Some M) -> M <> "" ->
        map target_branch (issued st (snd (deleteFile api h path None st)))
          = [Some (defaultBranch h); None]).
Proof.
  split; [|split; [|split; [|split; [|split]]]].
  - rewrite (issued_app _ _ _ (getFileSha_trace api h path None st)). reflexivity.
  - unfold listFiles, bind, request, ret.
    destruct (repos_getContent api (world st) _) as [[data|err] w];
      cbn [snd]; erewrite issued_app by (cbn [trace]; reflexivity); reflexivity.
  - unfold downloadFile, bind, request, ret, throw.
    destruct (repos_getContent api (world st) _) as [[[l|e|]|err] w];
      cbn [snd];
      try destruct (e_encoding e) as [enc|];
      try destruct (String.eqb enc "base64");
      erewrite issued_app by (cbn [trace]; reflexivity); reflexivity.
  - destruct (getFileSha_answer api h path None st) as [sha Hsha].
    destruct (saveFile_checked_run api h base64 path None None st sha Hsha)
      as (p & Hp & Htrace).
    rewrite (issued_app _ _ _ Htrace). subst p.
    destruct sha as [s|]; cbn; [destruct (truthy_str s)|]; reflexivity.
  - unfold saveFile, bind, ret, request. cbn [negb].
    destruct (repos_createOrUpdateFileContents api _ _) as [r w].
    cbn [snd]. erewrite issued_app by (cbn [trace]; reflexivity). reflexivity.
  - intros M Hsha HM.
    rewrite (deleteFile_present api h path None st M Hsha HM). cbn [snd].
    erewrite last_issued_after_probe;
      [|apply getFileSha_trace|cbn [trace]; reflexivity].
    reflexivity.
Qed.

(** C4: [setDefaultBranch] on the empty string throws the InvalidArgument
    error and leaves the handle as it was; on a non-empty string it
    returns, changes the default branch to that string and nothing else,
    and the next probe that is given no branch reads from that branch. *)
Theorem setDefaultBranch_empty_or_replace (h : GitStorage) (branch path : string)
    (st : state World) :
  let run := setDefaultBranch h branch in
  (branch = "" ->
     (exists e, fst run = Throw e /\ classify e = InvalidArgument)
     /\ snd run = h)
  /\ (branch <> "" ->
        fst run = Ok tt
        /\ defaultBranch (snd run) = branch
        /\ owner (snd run) = owner h /\ repo (snd run) = repo h
        /\ token (snd run) = token h /\ octokit (snd run) = octokit h
        /\ map target_branch
             (issued st (snd (getFileSha api (snd run) path None st)))
           = [Some branch]).
Proof.
  cbv zeta. unfold setDefaultBranch. split.
  - intros ->. cbn. split; [|reflexivity].
    eexists. split; reflexivity.
  - intros Hbranch. rewrite (proj2 (truthy_str_true branch) Hbranch). cbn.
    repeat split.
    rewrite (issued_app _ _ _ (getFileSha_trace api _ path None st)).
    reflexivity.
Qed.

Lemma constructor_defaultBranch (owner repo : string) (o : option options) :
  defaultBranch (constructor owner repo o) <> "".
Proof. cbn. apply or_nonempty. discriminate. Qed.

Lemma setDefaultBranch_preserves (h : GitStorage) (branch : string) :
  defaultBranch h <> "" -> defaultBranch (snd (setDefaultBranch h branch)) <> "".
Proof.
  intros Hh. unfold setDefaultBranch.
  destruct (truthy_str branch) eqn:E; cbn; [|exact Hh].
  now apply truthy_str_true.
Qed.

Lemma exec_other_method (h : GitStorage) (m : method) (st : state World) :
  (forall branch, m <> SetDefaultBranch branch) -> fst (exec api h m st) = h.
Proof.
  intros Hm. destruct m; try reflexivity. now elim (Hm branch).
Qed.

Lemma exec_preserves (h : GitStorage) (m : method) (st : state World) :
  defaultBranch h <> "" -> defaultBranch (fst (exec api h m st)) <> "".
Proof.
  intros Hh. destruct m; try exact Hh.
  cbn. now apply setDefaultBranch_preserves.
Qed.

(** C9: the default branch of a handle is never the empty string.  The
    constructor puts "main" in the place of an absent or empty option,
    [setDefaultBranch] assigns non-empty strings only, and no other
    method changes the field; so the property holds of every handle made
    by the constructor and then used through any sequence of methods, on
    any remote. *)
Theorem defaultBranch_never_empty (h : GitStorage) :
  reachable api h ->
  defaultBranch h <> ""
  /\ (forall owner repo o,
        truthy (opt_chain o opt_defaultBranch) = false ->
        defaultBranch (constructor owner repo o) = "main")
  /\ (forall branch, defaultBranch (snd (setDefaultBranch h branch)) <> "")
  /\ (forall m st, (forall branch, m <> SetDefaultBranch branch) ->
        defaultBranch (fst (exec api h m st)) = defaultBranch h).
Proof.
  intros Hreach.
  assert (Hne : defaultBranch h <> "").
  { induction Hreach as [owner repo o | h m st _ IH].
    - apply constructor_defaultBranch.
    - now apply exec_preserves. }
  split; [exact Hne|]. split; [|split].
  - intros owner repo o Hfalsy. cbn.
    destruct (opt_chain o opt_defaultBranch) as [s|]; cbn in *;
      [rewrite Hfalsy|]; reflexivity.
  - intros branch. now apply setDefaultBranch_preserves.
  - intros m st Hm. now rewrite exec_other_method.
Qed.

End DefaultBranch.

(** ** Base64 *)

Section Base64Facts.

Local Open Scope N_scope.

(** Induction over a byte sequence three bytes at a time. *)
Lemma triples_ind {A} (P : list A -> Prop) :
  P [] ->
  (forall a, P [a]) ->
  (forall a b, P [a; b]) ->
  (forall a b c rest, P rest -> P (a :: b :: c :: rest)) ->
  forall l, P l.
Proof.
  intros H0 H1 H2 H3 l.
  enough (H : P l /\ (forall a, P (a :: l)) /\ (forall a b, P (a :: b :: l)))
    by apply H.
  induction l as [|x l (IH0 & IH1 & IH2)].
  - auto.
  - repeat split; auto.
Qed.

Ltac euclid := zify; Z.to_euclidean_division_equations; lia.

Lemma sextets_six_bit (bs : list N) : byte_sized bs -> six_bit (sextets bs).
Proof.
  unfold byte_sized, six_bit.
  induction bs as [|a|a b|a b c rest IH] using triples_ind; intros Hbs; cbn.
  - constructor.
  - inversion_clear Hbs. repeat constructor; euclid.
  - inversion_clear Hbs as [|? ? Ha Hb']. inversion_clear Hb' as [|? ? Hb _].
    repeat constructor; euclid.
  - inversion_clear Hbs as [|? ? Ha Hb']. inversion_clear Hb' as [|? ? Hb Hc'].
    inversion_clear Hc' as [|? ? Hc Hrest].
    repeat (constructor; [euclid|]). now apply IH.
Qed.

(** Regrouping the bits gives the bytes back. *)
Lemma unsextets_sextets (bs : list N) : byte_sized bs -> unsextets (sextets bs) = bs.
Proof.
  unfold byte_sized.
  induction bs as [|a|a b|a b c rest IH] using triples_ind; intros Hbs; cbn.
  - reflexivity.
  - inversion_clear Hbs. f_equal. euclid.
  - inversion_clear Hbs as [|? ? Ha Hb']. inversion_clear Hb' as [|? ? Hb _].
    f_equal; [euclid|]. f_equal. euclid.
  - inversion_clear Hbs as [|? ? Ha Hb']. inversion_clear Hb' as [|? ? Hb Hc'].
    inversion_clear Hc' as [|? ? Hc Hrest].
    rewrite (IH Hrest).
    f_equal; [euclid|]. f_equal; [euclid|]. f_equal. euclid.
Qed.

(** The alphabet: decoding a character of a 6-bit value gives the value. *)
Lemma b64_index_char (n : N) : n < 64 -> b64_index (b64_char n) = Some n.
Proof.
  intros Hn.
  rewrite <- (N2Nat.id n) in *.
  assert (Hk : (N.to_nat n < 64)%nat) by lia.
  generalize dependent (N.to_nat n). clear n. intros k _ Hk.
  do 64 (destruct k as [|k]; [reflexivity|]).
  lia.
Qed.

(** No character of the alphabet is padding, white space, a comma or part
    of a line break. *)
Lemma alphabet_plain (c : ascii) (n : N) :
  b64_index c = Some n ->
  is_pad c = false /\ is_ascii_whitespace c = false
  /\ Ascii.eqb c ","%char = false
  /\ Ascii.eqb c LF = false /\ Ascii.eqb c CR = false.
Proof.
  intros H.
  destruct c as [[] [] [] [] [] [] [] []];
    solve [discriminate H | repeat split; reflexivity].
Qed.

Lemma indices_chars (ns : list N) : six_bit ns -> indices (map b64_char ns) = Some ns.
Proof.
  induction 1 as [|n ns Hn _ IH]; cbn; [reflexivity|].
  now rewrite (b64_index_char n Hn), IH.
Qed.

Lemma chars_plain (bs : list N) :
  byte_sized bs ->
  Forall (fun c => exists n, b64_index c = Some n) (chars bs).
Proof.
  intros Hbs. unfold chars. apply Forall_map.
  eapply Forall_impl; [|apply (sextets_six_bit bs Hbs)].
  intros n Hn. exists n. now apply b64_index_char.
Qed.

Lemma padding_plain (len : nat) :
  Forall (fun c => is_pad c = true /\ is_ascii_whitespace c = false
                   /\ Ascii.eqb c ","%char = false
                   /\ Ascii.eqb c LF = false /\ Ascii.eqb c CR = false)
    (padding len).
Proof.
  unfold padding. destruct (Nat.modulo len 3) as [|[|[|k]]];
    repeat constructor.
Qed.

Lemma filter_all {A} (f : A -> bool) (l : list A) :
  Forall (fun x => f x = true) l -> filter f l = l.
Proof.
  induction 1 as [|x l Hx _ IH]; cbn; [reflexivity|].
  now rewrite Hx, IH.
Qed.

Lemma padding_next (len : nat) : padding (3 + len) = padding len.
Proof.
  unfold padding. replace (3 + len)%nat with (len + 1 * 3)%nat by lia.
  now rewrite Nat.Div0.mod_add.
Qed.

Lemma mod4_next (k : nat) : Nat.modulo (4 + k) 4 = Nat.modulo k 4.
Proof.
  replace (4 + k)%nat with (k + 1 * 4)%nat by lia.
  apply Nat.Div0.mod_add.
Qed.

(** The padded text has a length that is a multiple of four; the text
    without its padding never has one character too many. *)
Lemma encoded_length (bs : list N) :
  Nat.modulo (length (chars bs ++ padding (length bs))%list) 4 = 0%nat
  /\ Nat.modulo (length (chars bs)) 4 <> 1%nat.
Proof.
  unfold chars.
  induction bs as [|a|a b|a b c rest IH] using triples_ind.
  - split; [reflexivity|discriminate].
  - split; [reflexivity|discriminate].
  - split; [reflexivity|discriminate].
  - cbn [sextets map length app].
    change (S (S (S (length rest)))) with (3 + length rest)%nat.
    rewrite padding_next.
    change (S (S (S (S ?n)))) with (4 + n)%nat.
    now rewrite !mod4_next.
Qed.

Lemma strip_padding_encoded (l : list ascii) (len : nat) :
  Forall (fun c => is_pad c = false) l ->
  strip_padding (l ++ padding len)%list = l.
Proof.
  intros Hl. unfold strip_padding, padding.
  assert (Hlast : forall c r, rev l = c :: r -> is_pad c = false).
  { intros c r E. rewrite Forall_forall in Hl. apply Hl.
    apply in_rev. rewrite E. now left. }
  assert (Hrev : l = rev (rev l)) by (symmetry; apply rev_involutive).
  assert (Hkeep : match rev l with
                  | c1 :: c2 :: r =>
                      if is_pad c1 then (if is_pad c2 then rev r else rev (c2 :: r))
                      else l
                  | [c1] => if is_pad c1 then [] else l
                  | [] => l
                  end = l).
  { destruct (rev l) as [|c1 [|c2 r]]; try reflexivity.
    - now rewrite (Hlast c1 [] eq_refl).
    - now rewrite (Hlast c1 (c2 :: r) eq_refl). }
  destruct (Nat.modulo len 3) as [|[|[|k]]].
  - rewrite app_nil_r. exact Hkeep.
  - rewrite rev_app_distr. cbn [rev app is_pad Ascii.eqb Bool.eqb].
    symmetry. exact Hrev.
  - rewrite rev_app_distr. cbn [rev app].
    destruct (rev l) as [|c2 r].
    + cbn. symmetry. exact Hrev.
    + change (is_pad "="%char) with true. cbn iota.
      rewrite (Hlast c2 r eq_refl). symmetry. exact Hrev.
  - rewrite app_nil_r. exact Hkeep.
Qed.

(** [atob] undoes the encoding. *)
Lemma atob_base64_encode (bs : list N) :
  byte_sized bs ->
  atob (base64_encode bs) = Ok (string_of_list_ascii (map ascii_of_N bs)).
Proof.
  intros Hbs. unfold atob, base64_encode.
  rewrite list_ascii_of_string_of_list_ascii.
  pose proof (chars_plain bs Hbs) as Hplain. fold (chars bs).
  rewrite filter_all.
  2:{ apply Forall_app. split.
      - eapply Forall_impl; [|exact Hplain].
        intros c [n Hc]. destruct (alphabet_plain c n Hc) as (_ & -> & _).
        reflexivity.
      - eapply Forall_impl; [|apply padding_plain].
        intros c (_ & -> & _). reflexivity. }
  destruct (encoded_length bs) as [-> Hrest]. cbn [Nat.eqb].
  rewrite strip_padding_encoded.
  2:{ eapply Forall_impl; [|exact Hplain].
      intros c [n Hc]. now destruct (alphabet_plain c n Hc) as (-> & _). }
  destruct (Nat.eqb_spec (Nat.modulo (length (chars bs)) 4) 1) as [E|_];
    [contradiction|].
  unfold chars. rewrite indices_chars by now apply sextets_six_bit.
  now rewrite unsextets_sextets.
Qed.

(** *** The loop of [base64ToBlob] *)

Lemma length_string_of_list_ascii (l : list ascii) :
  String.length (string_of_list_ascii l) = length l.
Proof. induction l as [|c l IH]; cbn; congruence. Qed.

Lemma charCodeAt_middle (pre suf : list ascii) (c : ascii) :
  charCodeAt (string_of_list_ascii (pre ++ c :: suf)%list) (length pre)
  = N_of_ascii c.
Proof.
  unfold charCodeAt. induction pre as [|p pre IH]; cbn; [reflexivity|exact IH].
Qed.

Lemma store_middle (done todo : Uint8Array) (x v : N) :
  store (done ++ x :: todo)%list (length done) v
  = (done ++ v mod 256 :: todo)%list.
Proof.
  induction done as [|d done IH]; cbn; [reflexivity|]. now rewrite IH.
Qed.

(** After [length pre] rounds the array holds the codes of [pre]; the
    remaining rounds write the codes of [suf]. *)
Lemma fill_rest (suf pre : list ascii) :
  fill (string_of_list_ascii (pre ++ suf)%list)
       (map code pre ++ new_Uint8Array (length suf))%list
       (length pre) (length suf)
  = map code (pre ++ suf)%list.
Proof.
  revert pre. induction suf as [|c suf IH]; intros pre; cbn [length fill].
  - cbn. now rewrite !app_nil_r.
  - unfold new_Uint8Array. cbn [repeat].
    rewrite charCodeAt_middle.
    rewrite <- (length_map code pre) at 1.
    rewrite store_middle.
    specialize (IH (pre ++ [c])%list).
    rewrite <- app_assoc, length_app, map_app in IH. cbn in IH.
    rewrite Nat.add_1_r, <- app_assoc in IH. exact IH.
Qed.

Lemma fill_all (l : list ascii) :
  fill (string_of_list_ascii l) (new_Uint8Array (length l)) 0 (length l)
  = map code l.
Proof. exact (fill_rest l []). Qed.

Lemma code_ascii_of_N (bs : list N) :
  byte_sized bs -> map code (map ascii_of_N bs) = bs.
Proof.
  induction 1 as [|b bs Hb _ IH]; cbn; [reflexivity|].
  rewrite IH. f_equal. unfold code.
  rewrite N_ascii_embedding by exact Hb. now apply N.mod_small.
Qed.

(** *** Splitting the data URL *)

Lemma append_assoc (a b c : string) : ((a ++ b) ++ c = a ++ (b ++ c))%string.
Proof. induction a as [|x a IH]; cbn; congruence. Qed.

Lemma list_ascii_of_append (a b : string) :
  list_ascii_of_string (a ++ b) = (list_ascii_of_string a ++ list_ascii_of_string b)%list.
Proof. induction a as [|x a IH]; cbn; congruence. Qed.

Lemma split_absent (sep : ascii) (s : string) :
  ~ In sep (list_ascii_of_string s) -> split sep s = [s].
Proof.
  induction s as [|c s IH]; cbn; intros Hs; [reflexivity|].
  destruct (Ascii.eqb_spec c sep) as [->|_]; [tauto|].
  rewrite IH by tauto. reflexivity.
Qed.

Lemma split_first (sep : ascii) (s1 s2 : string) :
  ~ In sep (list_ascii_of_string s1) ->
  split sep (s1 ++ String sep s2) = s1 :: split sep s2.
Proof.
  induction s1 as [|c s1 IH]; cbn; intros Hs.
  - now rewrite Ascii.eqb_refl.
  - destruct (Ascii.eqb_spec c sep) as [->|_]; [tauto|].
    rewrite IH by tauto. reflexivity.
Qed.

Lemma encoded_without (c : ascii) (bs : list N) :
  (forall x n, b64_index x = Some n -> Ascii.eqb x c = false) ->
  Ascii.eqb "="%char c = false ->
  byte_sized bs ->
  ~ In c (list_ascii_of_string (base64_encode bs)).
Proof.
  intros Halpha Hpad Hbs. unfold base64_encode.
  rewrite list_ascii_of_string_of_list_ascii. fold (chars bs).
  intros Hin. apply in_app_or in Hin. destruct Hin as [Hin|Hin].
  - pose proof (chars_plain bs Hbs) as Hplain.
    rewrite Forall_forall in Hplain. destruct (Hplain c Hin) as [n Hn].
    specialize (Halpha c n Hn). now rewrite Ascii.eqb_refl in Halpha.
  - pose proof (padding_plain (length bs)) as Hplain.
    rewrite Forall_forall in Hplain. destruct (Hplain c Hin) as (Hc & _).
    unfold is_pad in Hc. apply Ascii.eqb_eq in Hc. subst c.
    discriminate Hpad.
Qed.

Lemma fileToBase64_payload (file : File) (bs : list N) :
  file_bytes file = Some bs ->
  byte_sized bs ->
  ~ In ","%char (list_ascii_of_string (file_type file)) ->
  fileToBase64 file = Ok (base64_encode bs).
Proof.
  intros Hread Hbs Htype. unfold fileToBase64, readAsDataURL. rewrite Hread.
  change (";base64," ++ base64_encode bs)%string
    with (";base64" ++ String ","%char (base64_encode bs))%string.
  rewrite <- !append_assoc.
  rewrite split_first.
  2:{ rewrite !list_ascii_of_append. intros Hin.
      repeat (apply in_app_or in Hin; destruct Hin as [Hin|Hin]).
      - cbn in Hin. repeat (destruct Hin as [Hin|Hin]; [discriminate Hin|]).
        exact Hin.
      - now apply Htype.
      - cbn in Hin. repeat (destruct Hin as [Hin|Hin]; [discriminate Hin|]).
        exact Hin. }
  rewrite split_absent.
  2:{ apply encoded_without; [|reflexivity|exact Hbs].
      intros x n Hx. now destruct (alphabet_plain x n Hx) as (_ & _ & -> & _). }
  cbn [nth_error]. f_equal.
  cbn. destruct (truthy_str (base64_encode bs)) eqn:E; [reflexivity|].
  symmetry. now apply truthy_str_false.
Qed.

(** *** Line breaks *)

Lemma line_broken_refl (s : string) : line_broken s s.
Proof. induction s; constructor; assumption. Qed.

Lemma replace_newlines_line_broken (payload text : string) :
  line_broken payload text ->
  ~ In LF (list_ascii_of_string payload) ->
  ~ In CR (list_ascii_of_string payload) ->
  replace_newlines text = payload.
Proof.
  induction 1 as [|c s t _ IH|s t _ IH|s t _ IH]; intros Hlf Hcr.
  - reflexivity.
  - cbn in Hlf, Hcr. cbn [replace_newlines].
    destruct (Ascii.eqb_spec c LF) as [->|_]; [tauto|].
    destruct (Ascii.eqb_spec c CR) as [->|_]; [tauto|].
    cbn [andb]. rewrite <- IH by tauto.
    destruct t; reflexivity.
  - cbn [replace_newlines]. rewrite Ascii.eqb_refl. now apply IH.
  - cbn [replace_newlines]. rewrite !Ascii.eqb_refl.
    change (Ascii.eqb CR LF) with false. cbn [andb]. now apply IH.
Qed.

Lemma base64ToBlob_encoded (bs : list N) (text : string) :
  byte_sized bs ->
  line_broken (base64_encode bs) text ->
  base64ToBlob text = Ok bs.
Proof.
  intros Hbs Hbroken. unfold base64ToBlob.
  rewrite (replace_newlines_line_broken _ _ Hbroken).
  - rewrite (atob_base64_encode bs Hbs).
    rewrite length_string_of_list_ascii, fill_all.
    now rewrite code_ascii_of_N.
  - apply encoded_without; [|reflexivity|exact Hbs].
    intros x n Hx. now destruct (alphabet_plain x n Hx) as (_ & _ & _ & -> & _).
  - apply encoded_without; [|reflexivity|exact Hbs].
    intros x n Hx. now destruct (alphabet_plain x n Hx) as (_ & _ & _ & _ & ->).
Qed.

(** C8: for a file whose bytes are X, [fileToBase64] gives a payload that
    [base64ToBlob] decodes to exactly X, and so does every text made from
    that payload by putting in line breaks.  The file is one the host can
    read, and the media type the host writes into the data URL has no
    comma. *)
Theorem base64_round_trip (file : File) (X : list N) :
  file_bytes file = Some X ->
  byte_sized X ->
  without ","%char (file_type file) ->
  exists payload,
    fileToBase64 file = Ok payload
    /\ base64ToBlob payload = Ok X
    /\ forall text, line_broken payload text -> base64ToBlob text = Ok X.
Proof.
  intros Hread HX Htype. exists (base64_encode X).
  split; [now apply fileToBase64_payload|].
  split.
  - apply base64ToBlob_encoded; [exact HX|apply line_broken_refl].
  - intros text Hbroken. now apply base64ToBlob_encoded.
Qed.

End Base64Facts.

(** ** Paths from download URLs *)

Section DownloadUrl.

Import Regex.

(** *** The pattern of a handle with plain names *)

Lemma tokens_plain_char (c : ascii) (s : string) :
  is_syntax c = false ->
  tokens (String c s) = option_map (cons (TAtom (Lit c))) (tokens s).
Proof.
  intros H.
  destruct c as [[] [] [] [] [] [] [] []];
    solve [discriminate H | reflexivity].
Qed.

Lemma tokens_plain (w s : string) (ts : list token) :
  plain w -> tokens s = Some ts -> tokens (w ++ s) = Some (atoms w ++ ts)%list.
Proof.
  unfold plain, atoms. intros Hw Hs.
  induction w as [|c w IH]; cbn [append list_ascii_of_string map app].
  - exact Hs.
  - inversion_clear Hw as [|? ? Hc Hw'].
    rewrite (tokens_plain_char c _ Hc), (IH Hw'). reflexivity.
Qed.

Lemma tokens_host (s : string) (ts : list token) :
  tokens s = Some ts ->
  tokens ("https://raw\.githubusercontent\.com/" ++ s)
  = Some (atoms "https://raw.githubusercontent.com/" ++ ts)%list.
Proof. intros Hs. cbn. rewrite Hs. reflexivity. Qed.

(** Literal atoms in front of tokens that do not start with [+] become
    literal items. *)
Lemma items_atoms (w : string) (ts : list token) (next : nat) (opened : list nat)
    (r : list item) :
  starts_with_plus ts = false ->
  items ts next opened = Some r ->
  items (atoms w ++ ts) next opened = Some (lits w ++ r)%list.
Proof.
  unfold atoms, lits. intros Hts Hr.
  induction (list_ascii_of_string w) as [|c l IH]; cbn [map app].
  - exact Hr.
  - cbn [items].
    destruct (map (fun c0 => TAtom (Lit c0)) l ++ ts)%list as [|t rest] eqn:E.
    + destruct l; [|discriminate E]. cbn in E. subst ts. cbn in IH.
      cbn. now rewrite IH.
    + destruct t.
      * rewrite IH. reflexivity.
      * destruct l; [|discriminate E]. cbn in E. subst ts. discriminate Hts.
      * rewrite IH. reflexivity.
      * rewrite IH. reflexivity.
Qed.

Lemma atoms_then (w : string) (t : token) (ts : list token) :
  starts_with_plus (t :: ts) = false ->
  starts_with_plus (atoms w ++ t :: ts) = false.
Proof.
  intros H. unfold atoms. destruct (list_ascii_of_string w); [exact H|reflexivity].
Qed.

Lemma compile_pattern (h : GitStorage) :
  plain (owner h) -> plain (repo h) ->
  compile (download_url_pattern h) = Some (pattern_items h).
Proof.
  intros Ho Hr. unfold compile, download_url_pattern, pattern_items.
  pose proof (tokens_plain (repo h) "/[^/]+/(.+)" _ Hr eq_refl) as H1.
  assert (H2 : tokens ("/" ++ repo h ++ "/[^/]+/(.+)")
               = Some (atoms "/" ++ atoms (repo h)
                       ++ [TAtom (Lit "/"); TAtom NotSlash; TPlus;
                           TAtom (Lit "/"); TOpen; TAtom Dot; TPlus; TClose])%list).
  { cbn. cbn in H1. rewrite H1. reflexivity. }
  rewrite (tokens_host _ _ (tokens_plain (owner h) _ _ Ho H2)).
  apply items_atoms; [now apply atoms_then|].
  apply items_atoms; [reflexivity|].
  apply items_atoms; [now apply atoms_then|].
  apply items_atoms; reflexivity.
Qed.

(** *** Matching literal items *)

Lemma match_lits (w s : string) (r : list item) (g : captures) :
  match_here (lits w ++ r) (w ++ s) g = match_here r s g.
Proof.
  unfold lits. induction w as [|c w IH]; cbn; [reflexivity|].
  now rewrite Ascii.eqb_refl.
Qed.

Lemma match_lits_inv (w s : string) (r : list item) (g g' : captures) :
  match_here (lits w ++ r) s g = Some g' ->
  exists s', s = w ++ s' /\ match_here r s' g = Some g'.
Proof.
  unfold lits. revert s. induction w as [|c w IH]; intros s; cbn.
  - intros H. now exists s.
  - destruct s as [|x s]; [discriminate|].
    destruct (Ascii.eqb_spec c x) as [->|_]; [|discriminate].
    intros H. destruct (IH s H) as (s' & -> & Hs'). now exists s'.
Qed.

Lemma search_at_start (r : list item) (s : string) (g : captures) :
  match_here r s no_captures = Some g -> search r s = Some g.
Proof. intros H. destruct s; cbn [search]; now rewrite H. Qed.

Lemma search_step (r : list item) (c : ascii) (s : string) :
  match_here r (String c s) no_captures = None ->
  search r (String c s) = search r s.
Proof. intros H. cbn [search]. now rewrite H. Qed.

(** A URL of the handle's own repository matches at its start, with the
    captures the end of the pattern makes. *)
Lemma own_url_found (h : GitStorage) (rest : string) (g : captures) :
  match_here tail_items ("/" ++ rest) no_captures = Some g ->
  search (pattern_items h) (raw_url (owner h) (repo h) rest) = Some g.
Proof.
  intros Hg. unfold raw_url, pattern_items.
  apply search_at_start. rewrite !match_lits. exact Hg.
Qed.

(** *** URLs of other repositories *)

Ltac absent :=
  let H := fresh in
  unfold without; cbn; intros H;
  repeat (destruct H as [H|H]; [discriminate H|]); exact H.

Lemma without_append (c : ascii) (a b : string) :
  without c a -> without c b -> without c (a ++ b).
Proof.
  unfold without. induction a as [|x a IH]; cbn; [tauto|].
  intros Ha Hb [E|Hin]; [tauto|]. apply IH; tauto.
Qed.

(** Two words without [c], each followed by [c]: equal texts have equal
    words. *)
Lemma cut_at_first (c : ascii) (a b x y : string) :
  without c a -> without c b ->
  a ++ String c x = b ++ String c y -> a = b /\ x = y.
Proof.
  unfold without. revert b.
  induction a as [|p a IH]; intros [|q b] Ha Hb E; cbn in *.
  - injection E as ->. auto.
  - injection E as -> _. tauto.
  - injection E as -> _. tauto.
  - injection E as -> E. destruct (IH b) as [-> ->]; auto.
Qed.

Lemma match_needs_colon (h : GitStorage) (s : string) (g : captures) :
  match_here (pattern_items h) s no_captures = Some g -> ~ without ":"%char s.
Proof.
  unfold pattern_items. intros H Hs.
  apply match_lits_inv in H. destruct H as (s' & -> & _).
  apply Hs. cbn. tauto.
Qed.

Lemma search_without_colon (h : GitStorage) (s : string) :
  without ":"%char s -> search (pattern_items h) s = None.
Proof.
  induction s as [|c s IH]; intros Hs; cbn [search].
  - destruct (match_here _ _ _) eqn:E; [|reflexivity].
    now apply match_needs_colon in E.
  - destruct (match_here _ _ _) eqn:E.
    + now apply match_needs_colon in E.
    + apply IH. unfold without in *. cbn in Hs. tauto.
Qed.

Lemma other_names_no_match (h : GitStorage) (o r rest : string) :
  without "/"%char (owner h) -> without "/"%char (repo h) ->
  without "/"%char o -> without "/"%char r ->
  (o, r) <> (owner h, repo h) ->
  match_here (pattern_items h) (raw_url o r rest) no_captures = None.
Proof.
  intros Hoh Hrh Ho Hr Hdiff.
  destruct (match_here _ _ _) as [g|] eqn:E; [exfalso|reflexivity].
  unfold pattern_items, raw_url in E.
  rewrite match_lits in E.
  apply match_lits_inv in E. destruct E as (s1 & E1 & E).
  apply match_lits_inv in E. destruct E as (s2 & -> & E).
  apply match_lits_inv in E. destruct E as (s3 & -> & E).
  destruct s3 as [|c s3]; [discriminate E|]. cbn [tail_items match_here] in E.
  destruct (accepts (Lit "/") c) eqn:Ec; [|discriminate E].
  unfold accepts in Ec. apply Ascii.eqb_eq in Ec. subst c.
  cbn [append] in E1.
  apply cut_at_first in E1; [|assumption|assumption].
  destruct E1 as [-> E1].
  apply cut_at_first in E1; [|assumption|assumption].
  destruct E1 as [-> _]. now apply Hdiff.
Qed.

(** Where C6 holds: on every handle whose owner and repository names hold
    no character of the pattern syntax, the URL of a file of the
    repository gives the path of the file, with or without a query; and
    when the names hold no slash either, the URL of any other repository
    (names without slash and colon) gives [null]. *)
Lemma getPathFromDownloadUrl_plain_names (h : GitStorage) :
  plain (owner h) -> plain (repo h) ->
  getPathFromDownloadUrl h (raw_url (owner h) (repo h) "main/folder/file.txt")
  = Some (Ok (Some "folder/file.txt"))
  /\ getPathFromDownloadUrl h
       (raw_url (owner h) (repo h) "main/folder/file.txt?token=XYZ")
     = Some (Ok (Some "folder/file.txt"))
  /\ (forall o r,
        without "/"%char (owner h) -> without "/"%char (repo h) ->
        without "/"%char o -> without "/"%char r ->
        without ":"%char o -> without ":"%char r ->
        (o, r) <> (owner h, repo h) ->
        getPathFromDownloadUrl h (raw_url o r "main/folder/file.txt")
        = Some (Ok None)).
Proof.
  intros Hpo Hpr. unfold getPathFromDownloadUrl.
  rewrite (compile_pattern h Hpo Hpr). split; [|split].
  - erewrite own_url_found by reflexivity. reflexivity.
  - erewrite own_url_found by reflexivity. reflexivity.
  - intros o r Hoh Hrh Ho Hr Hco Hcr Hdiff.
    enough (Hnone : search (pattern_items h) (raw_url o r "main/folder/file.txt")
                    = None) by now rewrite Hnone.
    pose proof (other_names_no_match h o r "main/folder/file.txt"
                  Hoh Hrh Ho Hr Hdiff) as H0.
    unfold raw_url in *. cbn [append] in *.
    rewrite search_step by exact H0.
    do 33 (rewrite search_step by reflexivity).
    apply search_without_colon.
    apply without_append; [exact Hco|].
    apply (without_append _ "/"); [absent|].
    apply without_append; [exact Hcr|]. absent.
Qed.

(** The same on the names OWNER and REPO. *)
Lemma getPathFromDownloadUrl_OWNER_REPO :
  getPathFromDownloadUrl (constructor "OWNER" "REPO" None)
    "https://raw.githubusercontent.com/OWNER/REPO/main/folder/file.txt"
  = Some (Ok (Some "folder/file.txt"))
  /\ getPathFromDownloadUrl (constructor "OWNER" "REPO" None)
       "https://raw.githubusercontent.com/OWNER/REPO/main/folder/file.txt?token=XYZ"
     = Some (Ok (Some "folder/file.txt"))
  /\ getPathFromDownloadUrl (constructor "OWNER" "REPO" None)
       "https://raw.githubusercontent.com/OTHER/REPO/main/folder/file.txt"
     = Some (Ok None)
  /\ getPathFromDownloadUrl (constructor "OWNER" "REPO" None)
       "https://raw.githubusercontent.com/OWNER/OTHER/main/folder/file.txt"
     = Some (Ok None).
Proof. repeat split. Qed.

(** C6 on a handle whose repository name has a dot.  The name goes into
    the pattern as it is, so the dot stands for any character: the two
    URLs of the repository itself give the path, and so does the URL of
    the repository "myXrepo", for which the claim asks [null]. *)
Theorem getPathFromDownloadUrl_dot_matches_other_repo :
  getPathFromDownloadUrl (constructor "octo" "my.repo" None)
    (raw_url "octo" "my.repo" "main/folder/file.txt")
  = Some (Ok (Some "folder/file.txt"))
  /\ getPathFromDownloadUrl (constructor "octo" "my.repo" None)
       (raw_url "octo" "my.repo" "main/folder/file.txt?token=XYZ")
     = Some (Ok (Some "folder/file.txt"))
  /\ raw_url "octo" "myXrepo" "main/folder/file.txt"
     = "https://raw.githubusercontent.com/octo/myXrepo/main/folder/file.txt"
  /\ getPathFromDownloadUrl (constructor "octo" "my.repo" None)
       (raw_url "octo" "myXrepo" "main/folder/file.txt")
     = Some (Ok (Some "folder/file.txt"))
  /\ "myXrepo" <> "my.repo".
Proof. repeat split. discriminate. Qed.

End DownloadUrl.

(** ** The methods run on the sample remote *)

Section Runs.

(** C1 at a path the store holds with marker "abc" and at a path it does
    not hold. *)
Lemma saveFile_create_or_update_sample :
  (exists p,
     issued (Sample.start [("a.txt", "abc")] true)
       (snd (saveFile Sample.api Sample.handle "AQID" "a.txt" None None false
               (Sample.start [("a.txt", "abc")] true)))
     = [ReposGetContent (probe_params Sample.handle "a.txt" None);
        ReposCreateOrUpdateFileContents p]
     /\ param "path" p = Some "a.txt"
     /\ param "content" p = Some "AQID"
     /\ param "message" p = Some "Update a.txt" /\ param "sha" p = Some "abc")
  /\ (exists p,
        issued (Sample.start [("a.txt", "abc")] true)
          (snd (saveFile Sample.api Sample.handle "AQID" "b.txt" None None false
                  (Sample.start [("a.txt", "abc")] true)))
        = [ReposGetContent (probe_params Sample.handle "b.txt" None);
           ReposCreateOrUpdateFileContents p]
        /\ param "path" p = Some "b.txt"
        /\ param "content" p = Some "AQID"
        /\ param "message" p = Some "Create b.txt" /\ param "sha" p = None).
Proof.
  split.
  - apply (saveFile_create_or_update Sample.api Sample.handle "AQID" "a.txt" None
             (Sample.start [("a.txt", "abc")] true) (Some "abc")).
    + reflexivity.
    + discriminate.
  - apply (saveFile_create_or_update Sample.api Sample.handle "AQID" "b.txt" None
             (Sample.start [("a.txt", "abc")] true) None).
    + reflexivity.
    + discriminate.
Defined.

(** C2 as stated fails where the remote refuses the deletion: the probe
    answers with the marker "abc", the deletion request is issued, and
    [deleteFile] throws what the remote answered instead of returning the
    record. *)
Lemma deleteFile_refused_by_remote :
  fst (getFileSha Sample.api Sample.handle "a.txt" None
         (Sample.start [("a.txt", "abc")] false)) = Ok (Some "abc")
  /\ issued (Sample.start [("a.txt", "abc")] false)
       (snd (deleteFile Sample.api Sample.handle "a.txt" None
               (Sample.start [("a.txt", "abc")] false)))
     = [ReposGetContent (probe_params Sample.handle "a.txt" None);
        ReposDeleteFile (delete_params Sample.handle "a.txt" None "abc")]
  /\ fst (deleteFile Sample.api Sample.handle "a.txt" None
            (Sample.start [("a.txt", "abc")] false))
     = Throw (RequestError 401 "Requires authentication")
  /\ fst (deleteFile Sample.api Sample.handle "a.txt" None
            (Sample.start [("a.txt", "abc")] false))
     <> Ok {| d_path := "a.txt"; d_deleted := true |}.
Proof.
  repeat split. discriminate.
Qed.

(** The amended C2 at a path the store holds, on a remote that accepts
    the deletion. *)
Lemma deleteFile_sample :
  exists p,
    issued (Sample.start [("a.txt", "abc")] true)
      (snd (deleteFile Sample.api Sample.handle "a.txt" None
              (Sample.start [("a.txt", "abc")] true)))
    = [ReposGetContent (probe_params Sample.handle "a.txt" None);
       ReposDeleteFile p]
    /\ param "sha" p = Some "abc"
    /\ param "message" p = Some "Delete a.txt"
    /\ param "path" p = Some "a.txt"
    /\ fst (deleteFile Sample.api Sample.handle "a.txt" None
              (Sample.start [("a.txt", "abc")] true))
       = Ok {| d_path := "a.txt"; d_deleted := true |}.
Proof.
  apply (deleteFile_not_found_or_one_request Sample.api Sample.handle "a.txt" None
           (Sample.start [("a.txt", "abc")] true) (Some "abc")).
  - reflexivity.
  - discriminate.
Defined.

(** C3 on a handle whose default branch is "dev", with the branch
    argument omitted everywhere.  The claim asks for "dev" in every
    request.  The probe reads from "dev"; [listFiles] and [downloadFile]
    read from "main"; the write of [saveFile] and the deletion of
    [deleteFile] name no branch, their parameter being called
    [useBranch]. *)
Theorem omitted_branch_on_dev_handle :
  defaultBranch Sample.handle = "dev"
  /\ map target_branch
       (issued (Sample.start [("a.txt", "abc")] true)
          (snd (getFileSha Sample.api Sample.handle "a.txt" None
                  (Sample.start [("a.txt", "abc")] true))))
     = [Some "dev"]
  /\ map target_branch
       (issued (Sample.start [("a.txt", "abc")] true)
          (snd (listFiles Sample.api Sample.handle "assets" None
                  (Sample.start [("a.txt", "abc")] true))))
     = [Some "main"]
  /\ map target_branch
       (issued (Sample.start [("a.txt", "abc")] true)
          (snd (downloadFile Sample.api Sample.handle "a.txt" None
                  (Sample.start [("a.txt", "abc")] true))))
     = [Some "main"]
  /\ issued (Sample.start [("a.txt", "abc")] true)
       (snd (saveFile Sample.api Sample.handle "AQID" "a.txt" None None false
               (Sample.start [("a.txt", "abc")] true)))
     = [ReposGetContent
          [("owner", "octo"); ("repo", "store"); ("path", "a.txt"); ("ref", "dev")];
        ReposCreateOrUpdateFileContents
          [("owner", "octo"); ("repo", "store"); ("path", "a.txt");
           ("message", "Update a.txt"); ("content", "AQID"); ("sha", "abc");
           ("useBranch", "dev")]]
  /\ map target_branch
       (issued (Sample.start [("a.txt", "abc")] true)
          (snd (saveFile Sample.api Sample.handle "AQID" "a.txt" None None false
                  (Sample.start [("a.txt", "abc")] true))))
     = [Some "dev"; None]
  /\ issued (Sample.start [("a.txt", "abc")] true)
       (snd (deleteFile Sample.api Sample.handle "a.txt" None
               (Sample.start [("a.txt", "abc")] true)))
     = [ReposGetContent
          [("owner", "octo"); ("repo", "store"); ("path", "a.txt"); ("ref", "dev")];
        ReposDeleteFile
          [("owner", "octo"); ("repo", "store"); ("path", "a.txt");
           ("message", "Delete a.txt"); ("sha", "abc"); ("useBranch", "dev")]]
  /\ map target_branch
       (issued (Sample.start [("a.txt", "abc")] true)
          (snd (deleteFile Sample.api Sample.handle "a.txt" None
                  (Sample.start [("a.txt", "abc")] true))))
     = [Some "dev"; None].
Proof.
  pose proof (omitted_branch_targets Sample.api Sample.handle "a.txt" "AQID"
                (Sample.start [("a.txt", "abc")] true))
    as (Hprobe & _ & Hdownload & Hsave & _ & Hdelete).
  pose proof (omitted_branch_targets Sample.api Sample.handle "assets" "AQID"
                (Sample.start [("a.txt", "abc")] true))
    as (_ & Hlist & _).
  specialize (Hdelete "abc" eq_refl ltac:(discriminate)).
  repeat split; assumption.
Qed.

(** C9 at the sample handle after two calls of [setDefaultBranch]. *)
Lemma defaultBranch_never_empty_sample :
  defaultBranch Sample.handle = "dev"
  /\ defaultBranch
       (fst (exec Sample.api
               (fst (exec Sample.api Sample.handle (SetDefaultBranch "")
                       (Sample.start [] true)))
               (SetDefaultBranch "release") (Sample.start [] true))) <> "".
Proof.
  split; [reflexivity|].
  apply (proj1 (defaultBranch_never_empty Sample.api _
                  (reach_exec Sample.api _ (SetDefaultBranch "release")
                     (Sample.start [] true)
                     (reach_exec Sample.api _ (SetDefaultBranch "")
                        (Sample.start [] true)
                        (reach_new Sample.api "octo" "store"
                           (Some {| opt_token := None;
                                    opt_defaultBranch := Some "dev" |})))))).
Defined.

(** C8 at a three-byte file. *)
Lemma base64_round_trip_sample :
  exists payload,
    fileToBase64 {| file_type := "text/plain"; file_bytes := Some [1; 2; 255]%N |}
      = Ok payload
    /\ base64ToBlob payload = Ok [1; 2; 255]%N
    /\ forall text, line_broken payload text -> base64ToBlob text = Ok [1; 2; 255]%N.
Proof.
  apply (base64_round_trip
           {| file_type := "text/plain"; file_bytes := Some [1; 2; 255]%N |}).
  - reflexivity.
  - repeat constructor.
  - cbn. intros H.
    repeat (destruct H as [H|H]; [discriminate H|]). exact H.
Defined.

End Runs.

(** * Further properties *)

(** ** Writing and deleting, beyond the marker found *)

Section MoreFacade.

Context {World : Type} (api : remote World).

(** One run of [saveFile]: the state the write starts from, the sha it
    holds, and the answer of the remote, which is the result. *)
Lemma saveFile_run (h : GitStorage) (base64 path : string)
    (message branch : option string) (skipCheck : bool) (st : state World) :
  let st1 := if skipCheck then st else snd (getFileSha api h path branch st) in
  let sha :=
    if skipCheck then None
    else match fst (getFileSha api h path branch st) with
         | Ok v => v
         | Throw _ => None
         end in
  let p := write_params h base64 path message branch sha in
  saveFile api h base64 path message branch skipCheck st =
    (fst (repos_createOrUpdateFileContents api (world st1) p),
     {| world := snd (repos_createOrUpdateFileContents api (world st1) p);
        trace := trace st1 ++ [ReposCreateOrUpdateFileContents p] |}).
Proof.
  cbv zeta. unfold saveFile, bind, write_params. destruct skipCheck; cbn [negb].
  - unfold ret, request.
    destruct (repos_createOrUpdateFileContents api _ _) as [r w]. reflexivity.
  - rewrite getFileSha_run. cbn [fst snd]. unfold request. cbn [world trace].
    destruct (repos_createOrUpdateFileContents api _ _) as [r w]. reflexivity.
Qed.

Lemma blind_probe (h : GitStorage) (path : string) (branch : option string)
    (st : state World) :
  shows_no_sha (fst (repos_getContent api (world st) (probe_params h path branch))) ->
  fst (getFileSha api h path branch st) = Ok None.
Proof.
  unfold shows_no_sha. intros H. rewrite getFileSha_run. cbn [fst].
  destruct (fst (repos_getContent api (world st) _)) as [data|err];
    [now rewrite H|reflexivity].
Qed.

(** X1: with [skipCheck] the method reads nothing.  Its one request is
    the write; the write never carries a sha, whatever the remote holds
    at the path, and without a message of the caller its message is
    "Create {path}".  The result is the answer of the remote to that
    write. *)
Theorem saveFile_skip_check_never_probes (h : GitStorage) (base64 path : string)
    (message branch : option string) (st : state World) :
  exists p,
    issued st (snd (saveFile api h base64 path message branch true st))
    = [ReposCreateOrUpdateFileContents p]
    /\ param "sha" p = None
    /\ param "message" p = Some (nullish message ("Create " ++ path))
    /\ param "path" p = Some path
    /\ param "content" p = Some base64
    /\ fst (saveFile api h base64 path message branch true st)
       = fst (repos_createOrUpdateFileContents api (world st) p).
Proof.
  exists (write_params h base64 path message branch None).
  rewrite (saveFile_run h base64 path message branch true st). cbn [fst snd].
  split; [now apply issued_app|]. cbn. auto.
Qed.

(** X2: when the read of the probe fails, for whatever reason, or answers
    with a directory listing, null or an object without sha, [saveFile]
    raises nothing for it: it goes on to its write, as a creation, with
    the message "Create {path}" and no sha. *)
Theorem saveFile_blind_probe_creates (h : GitStorage) (base64 path : string)
    (branch : option string) (st : state World) :
  shows_no_sha (fst (repos_getContent api (world st) (probe_params h path branch))) ->
  exists p,
    issued st (snd (saveFile api h base64 path None branch false st))
    = [ReposGetContent (probe_params h path branch);
       ReposCreateOrUpdateFileContents p]
    /\ param "message" p = Some ("Create " ++ path)
    /\ param "sha" p = None
    /\ param "content" p = Some base64.
Proof.
  intros Hblind. pose proof (blind_probe h path branch st Hblind) as Hprobe.
  exists (write_params h base64 path None branch None).
  rewrite (saveFile_run h base64 path None branch false st).
  rewrite Hprobe. cbn [snd]. split.
  - apply issued_app. cbn [trace]. rewrite getFileSha_trace, <- app_assoc.
    reflexivity.
  - cbn. auto.
Qed.

(** X3: a message of the caller is the message of the write as it is, and
    it has no part in the marker: the write carries the sha the probe
    answered when that is a non-empty string, and none otherwise. *)
Theorem saveFile_message_verbatim (h : GitStorage) (base64 path message : string)
    (branch : option string) (st : state World) (marker : option string) :
  fst (getFileSha api h path branch st) = Ok marker ->
  exists p,
    issued st (snd (saveFile api h base64 path (Some message) branch false st))
    = [ReposGetContent (probe_params h path branch);
       ReposCreateOrUpdateFileContents p]
    /\ param "message" p = Some message
    /\ param "sha" p = (if truthy marker then marker else None).
Proof.
  intros Hprobe.
  exists (write_params h base64 path (Some message) branch marker).
  rewrite (saveFile_run h base64 path (Some message) branch false st).
  rewrite Hprobe. cbn [snd]. split.
  - apply issued_app. cbn [trace]. rewrite getFileSha_trace, <- app_assoc.
    reflexivity.
  - destruct marker as [s|]; cbn; [destruct (truthy_str s)|]; cbn; auto.
Qed.

(** X4: what the remote answers is what the caller gets.  [getRepoInfo]
    returns the answer to its request, data or error; [listFiles] fails
    with the error of its read, it does not turn it into the empty list;
    [saveFile] returns the answer to its write, data or error, and leaves
    the remote in the state that write left. *)
Theorem remote_answers_pass_through (h : GitStorage) (base64 path : string)
    (message branch : option string) (skipCheck : bool) (st : state World) :
  fst (getRepoInfo api h st)
  = fst (repos_get api (world st) [("owner", owner h); ("repo", repo h)])
  /\ (forall err,
        fst (repos_getContent api (world st) (read_params h path branch))
        = Throw err ->
        fst (listFiles api h path branch st) = Throw err)
  /\ (exists p,
        let answer :=
          repos_createOrUpdateFileContents api
            (world (if skipCheck then st
                    else snd (getFileSha api h path branch st))) p in
        last (issued st
                (snd (saveFile api h base64 path message branch skipCheck st)))
             (ReposGet [])
        = ReposCreateOrUpdateFileContents p
        /\ fst (saveFile api h base64 path message branch skipCheck st)
           = fst answer
        /\ world (snd (saveFile api h base64 path message branch skipCheck st))
           = snd answer).
Proof.
  split; [|split].
  - unfold getRepoInfo, request.
    destruct (repos_get api (world st) _) as [r w]. reflexivity.
  - intros err Herr. unfold listFiles, bind, request, ret.
    fold (read_params h path branch).
    destruct (repos_getContent api (world st) _) as [r w].
    cbn [fst] in *. subst r. reflexivity.
  - eexists. cbv zeta.
    rewrite (saveFile_run h base64 path message branch skipCheck st).
    cbn [fst snd world]. split; [|split; reflexivity].
    destruct skipCheck.
    + erewrite issued_app by (cbn [trace]; reflexivity). reflexivity.
    + erewrite issued_app
        by (cbn [trace]; rewrite getFileSha_trace, <- app_assoc; reflexivity).
      reflexivity.
Qed.

(** X5: [downloadFile] issues one read and returns its payload only when
    that is an object whose encoding is "base64", and then unchanged.  An
    object with another encoding or none, and a directory listing, give
    null; a null payload makes it throw a TypeError; a failed read fails
    with the error of the remote. *)
Theorem downloadFile_base64_or_null (h : GitStorage) (path : string)
    (branch : option string) (st : state World) :
  let read := fst (repos_getContent api (world st) (read_params h path branch)) in
  let run := downloadFile api h path branch st in
  issued st (snd run) = [ReposGetContent (read_params h path branch)]
  /\ (forall e, read = Ok (DataObject e) -> e_encoding e = Some "base64" ->
        fst run = Ok (Some (DataObject e)))
  /\ (forall e, read = Ok (DataObject e) -> e_encoding e <> Some "base64" ->
        fst run = Ok None)
  /\ (forall l, read = Ok (DataArray l) -> fst run = Ok None)
  /\ (read = Ok DataNullish -> exists msg, fst run = Throw (TypeError msg))
  /\ (forall err, read = Throw err -> fst run = Throw err)
  /\ (forall data, fst run = Ok (Some data) ->
        read = Ok data
        /\ exists e, data = DataObject e /\ e_encoding e = Some "base64").
Proof.
  cbv zeta. unfold downloadFile, bind, request, ret, throw, read_params.
  destruct (repos_getContent api (world st) _) as [[[l|e|]|err] w];
    cbn [fst snd trace];
    [ | destruct (e_encoding e) as [enc|] eqn:Eenc;
        [destruct (String.eqb_spec enc "base64") as [->|Hne]|];
        cbn [fst snd trace] | | ];
    (split; [now apply issued_app|]);
    repeat match goal with |- _ /\ _ => split end;
    try (intros; discriminate).
  - intros l' _. reflexivity.
  - intros e' [= <-] _. reflexivity.
  - intros e' [= <-] Hne. rewrite Eenc in Hne. now elim Hne.
  - intros data [= <-]. split; [reflexivity|]. now exists e.
  - intros e' [= <-] Hb. rewrite Eenc in Hb. injection Hb as ->. now elim Hne.
  - intros e' _ _. reflexivity.
  - intros e' [= <-] Hb. rewrite Eenc in Hb. discriminate Hb.
  - intros e' _ _. reflexivity.
  - intros _. eexists. reflexivity.
  - intros err' [= ->]. reflexivity.
Qed.

(** X6: [deleteFile] cannot tell a missing file from a failed read.  When
    the read of the probe fails, for whatever reason, or answers with a
    directory listing, null or an object without sha, it fails with the
    NotFound error, issues no deletion, and leaves the remote as the read
    left it. *)
Theorem deleteFile_blind_probe_not_found (h : GitStorage) (path : string)
    (branch : option string) (st : state World) :
  shows_no_sha (fst (repos_getContent api (world st) (probe_params h path branch))) ->
  fst (deleteFile api h path branch st) = Throw (Error "File not found")
  /\ classify (Error "File not found") = NotFound
  /\ issued st (snd (deleteFile api h path branch st))
     = [ReposGetContent (probe_params h path branch)]
  /\ world (snd (deleteFile api h path branch st))
     = snd (repos_getContent api (world st) (probe_params h path branch)).
Proof.
  intros Hblind. pose proof (blind_probe h path branch st Hblind) as Hprobe.
  rewrite (deleteFile_absent api h path branch st None Hprobe eq_refl).
  cbn [fst snd]. split; [reflexivity|]. split; [reflexivity|]. split.
  - apply issued_app. apply getFileSha_trace.
  - rewrite getFileSha_run. reflexivity.
Qed.

End MoreFacade.

(** ** The requests of the methods *)

Section Traffic.

Context {World : Type} (api : remote World).

(** The requests of one method, whatever the remote answers. *)
Lemma exec_issued (h : GitStorage) (m : method) (st : state World) :
  let l := issued st (snd (exec api h m st)) in
  match m with
  | GetRepoInfo => l = [ReposGet [("owner", owner h); ("repo", repo h)]]
  | ListFiles folder branch => l = [ReposGetContent (read_params h folder branch)]
  | DownloadFile path branch => l = [ReposGetContent (read_params h path branch)]
  | GetFileSha path branch => l = [ReposGetContent (probe_params h path branch)]
  | SaveFile base64 path message branch skipCheck =>
      exists sha,
        l = ((if skipCheck then []
              else [ReposGetContent (probe_params h path branch)])
             ++ [ReposCreateOrUpdateFileContents
                   (write_params h base64 path message branch sha)])%list
  | DeleteFile path branch =>
      l = [ReposGetContent (probe_params h path branch)]
      \/ exists sha,
           l = [ReposGetContent (probe_params h path branch);
                ReposDeleteFile (delete_params h path branch sha)]
  | _ => l = []
  end.
Proof.
  cbv zeta. destruct m; cbn [exec snd].
  - apply issued_app. now rewrite app_nil_r.
  - apply issued_app. unfold getRepoInfo, request.
    destruct (repos_get api _ _) as [r w]. reflexivity.
  - apply issued_app. unfold listFiles, bind, request, ret, read_params.
    destruct (repos_getContent api _ _) as [[data|err] w]; reflexivity.
  - apply issued_app. apply getFileSha_trace.
  - rewrite saveFile_run. cbn [snd].
    destruct skipCheck; eexists; apply issued_app; cbn [trace];
      [reflexivity|].
    rewrite getFileSha_trace, <- app_assoc. reflexivity.
  - apply issued_app. unfold downloadFile, bind, request, ret, throw, read_params.
    destruct (repos_getContent api _ _) as [[[l|e|]|err] w]; try reflexivity.
    destruct (e_encoding e) as [enc|]; [destruct (String.eqb enc "base64")|];
      reflexivity.
  - apply issued_app. now rewrite app_nil_r.
  - apply issued_app. now rewrite app_nil_r.
  - destruct (getFileSha_answer api h path branch st) as [sha Hsha].
    destruct (truthy sha) eqn:Htruthy.
    + destruct sha as [s|]; [|discriminate Htruthy].
      right. exists s. apply issued_app.
      rewrite (deleteFile_present api h path branch st s Hsha).
      * cbn [snd trace]. rewrite getFileSha_trace, <- app_assoc. reflexivity.
      * now apply truthy_str_true.
    + left. apply issued_app.
      rewrite (deleteFile_absent api h path branch st sha Hsha Htruthy).
      cbn [snd]. apply getFileSha_trace.
  - apply issued_app. now rewrite app_nil_r.
  - apply issued_app. now rewrite app_nil_r.
Qed.

(** X7: every public method issues at most one reading request and then
    at most one changing request, on every remote and whatever it
    answers; only [saveFile] and [deleteFile] issue a changing request.
    There is no retry and no second write. *)
Theorem one_read_then_one_change (h : GitStorage) (m : method) (st : state World) :
  exists reads changes,
    issued st (snd (exec api h m st)) = (reads ++ changes)%list
    /\ forallb is_query reads = true
    /\ forallb is_mutation changes = true
    /\ (length reads <= 1)%nat
    /\ (length changes <= 1)%nat
    /\ (changes <> [] ->
          (exists base64 path message branch skipCheck,
             m = SaveFile base64 path message branch skipCheck)
          \/ (exists path branch, m = DeleteFile path branch)).
Proof.
  pose proof (exec_issued h m st) as H. cbv zeta in H.
  destruct m;
    try (exists [], []; rewrite H; repeat split; auto; intros E; now elim E);
    try (eexists [_], []; rewrite H; repeat split; auto; intros E; now elim E).
  - destruct H as [sha H]. rewrite H.
    destruct skipCheck.
    + exists [], [ReposCreateOrUpdateFileContents
                   (write_params h base64 path message branch sha)].
      repeat split; auto. intros _. left. now repeat eexists.
    + exists [ReposGetContent (probe_params h path branch)],
             [ReposCreateOrUpdateFileContents
                (write_params h base64 path message branch sha)].
      repeat split; auto. intros _. left. now repeat eexists.
  - destruct H as [H|[sha H]]; rewrite H.
    + exists [ReposGetContent (probe_params h path branch)], [].
      repeat split; auto. intros E; now elim E.
    + exists [ReposGetContent (probe_params h path branch)],
             [ReposDeleteFile (delete_params h path branch sha)].
      repeat split; auto. intros _. right. now repeat eexists.
Qed.

(** X8: every request a method issues names the owner and the repository
    of the handle; no method addresses another repository. *)
Theorem requests_name_own_repository (h : GitStorage) (m : method)
    (st : state World) (c : call) :
  In c (issued st (snd (exec api h m st))) ->
  param "owner" (call_params c) = Some (owner h)
  /\ param "repo" (call_params c) = Some (repo h).
Proof.
  pose proof (exec_issued h m st) as H. cbv zeta in H. intros Hin.
  destruct m;
    try (rewrite H in Hin; destruct Hin as [<-|[]]; split; reflexivity);
    try (rewrite H in Hin; destruct Hin).
  - destruct H as [sha H]. rewrite H in Hin.
    destruct skipCheck; cbn in Hin;
      repeat (destruct Hin as [<-|Hin]; [split; reflexivity|]);
      destruct Hin.
  - destruct H as [H|[sha H]]; rewrite H in Hin;
      repeat (destruct Hin as [<-|Hin]; [split; reflexivity|]);
      destruct Hin.
Qed.

(** X9: a branch given by the caller is the branch the three reading
    methods ask for.  The empty string is no branch for the probe, which
    then reads from the default branch, but it is one for [listFiles] and
    [downloadFile], whose default applies to an absent argument only. *)
Theorem explicit_branch_of_reads (h : GitStorage) (path branch : string)
    (st : state World) :
  (branch <> "" ->
     map target_branch (issued st (snd (getFileSha api h path (Some branch) st)))
       = [Some branch])
  /\ map target_branch (issued st (snd (listFiles api h path (Some branch) st)))
       = [Some branch]
  /\ map target_branch (issued st (snd (downloadFile api h path (Some branch) st)))
       = [Some branch]
  /\ map target_branch (issued st (snd (getFileSha api h path (Some "") st)))
       = [Some (defaultBranch h)].
Proof.
  pose proof (exec_issued h (GetFileSha path (Some branch)) st) as Hsha.
  pose proof (exec_issued h (ListFiles path (Some branch)) st) as Hlist.
  pose proof (exec_issued h (DownloadFile path (Some branch)) st) as Hdown.
  pose proof (exec_issued h (GetFileSha path (Some "")) st) as Hempty.
  cbv zeta in *. cbn [exec snd] in *.
  rewrite Hsha, Hlist, Hdown, Hempty. repeat split.
  intros Hb. cbn. now rewrite (proj2 (truthy_str_true branch) Hb).
Qed.

(** *** Sequences of calls *)

Lemma run_methods_last (h : GitStorage) (st : state World) (ms : list method)
    (m : method) :
  run_methods api h st (ms ++ [m])
  = exec api (fst (run_methods api h st ms)) m (snd (run_methods api h st ms)).
Proof. unfold run_methods. now rewrite fold_left_app. Qed.

Lemma exec_fields (h : GitStorage) (m : method) (st : state World) :
  owner (fst (exec api h m st)) = owner h
  /\ repo (fst (exec api h m st)) = repo h
  /\ token (fst (exec api h m st)) = token h
  /\ octokit (fst (exec api h m st)) = octokit h.
Proof.
  destruct m; cbn [exec fst]; auto.
  unfold setDefaultBranch. destruct (truthy_str branch); cbn; auto.
Qed.

(** X10: after any sequence of calls of the public methods, on any
    remote, the default branch of the handle is the last non-empty string
    that was given to [setDefaultBranch], and the one the handle started
    with when there was none; the calls that threw and the other methods
    leave it alone. *)
Theorem defaultBranch_after_methods (h : GitStorage) (st : state World)
    (ms : list method) :
  defaultBranch (fst (run_methods api h st ms))
  = match last_nonempty (branch_arguments ms) with
    | Some b => b
    | None => defaultBranch h
    end.
Proof.
  unfold last_nonempty, branch_arguments.
  induction ms as [|m ms IH] using rev_ind; [reflexivity|].
  rewrite run_methods_last, flat_map_app. cbn [flat_map].
  destruct m; rewrite ?app_nil_r; try exact IH.
  rewrite rev_app_distr. cbn [rev app find exec fst].
  unfold setDefaultBranch. destruct (truthy_str branch); cbn; [reflexivity|exact IH].
Qed.

(** X11: owner, repository, token and client of a handle are those it was
    made with, after any sequence of calls of the public methods on any
    remote. *)
Theorem methods_keep_repository_and_token (h : GitStorage) (st : state World)
    (ms : list method) :
  owner (fst (run_methods api h st ms)) = owner h
  /\ repo (fst (run_methods api h st ms)) = repo h
  /\ token (fst (run_methods api h st ms)) = token h
  /\ octokit (fst (run_methods api h st ms)) = octokit h.
Proof.
  induction ms as [|m ms (IHo & IHr & IHt & IHc)] using rev_ind; [auto|].
  rewrite run_methods_last.
  destruct (exec_fields (fst (run_methods api h st ms)) m
              (snd (run_methods api h st ms))) as (-> & -> & -> & ->).
  auto.
Qed.

End Traffic.

(** ** Paths from download URLs, in general *)

Section MoreUrl.

Import Regex.

(** The branch segment: [[^/]+] takes the whole of a segment that is
    followed by a slash. *)
Lemma many_not_slash (b s : string) (r : list item) (g : captures) :
  b <> "" -> without "/"%char b ->
  match_here (Many NotSlash :: One (Lit "/") :: r) (b ++ String "/" s) g
  = match_here r s g.
Proof.
  unfold without. induction b as [|c b IH]; intros Hne Hb; [now elim Hne|].
  cbn [append list_ascii_of_string] in *.
  assert (Hc : accepts NotSlash c = true).
  { cbn [accepts]. destruct (Ascii.eqb_spec c "/") as [->|_]; [|reflexivity].
    elim Hb. now left. }
  change (match_here (Many NotSlash :: One (Lit "/") :: r)
            (String c (b ++ String "/" s)) g)
    with (if accepts NotSlash c
          then match match_here (Many NotSlash :: One (Lit "/") :: r)
                       (b ++ String "/" s) g with
               | Some g' => Some g'
               | None => match_here (One (Lit "/") :: r) (b ++ String "/" s) g
               end
          else None).
  rewrite Hc. destruct b as [|c' b].
  - cbn. reflexivity.
  - rewrite IH; [|discriminate|intros Hin; apply Hb; now right].
    destruct (match_here r s g) as [g'|]; [reflexivity|].
    cbn [append match_here accepts].
    destruct (Ascii.eqb_spec "/" c') as [<-|_]; [|reflexivity].
    elim Hb. right. now left.
Qed.

(** The group [(.+)] takes a line to its end. *)
Lemma many_dot_to_end (s : string) (g : captures) :
  s <> "" -> without LF s -> without CR s ->
  match_here [Many Dot; Close 1] s g
  = Some {| g_start := g_start g; g_end := Some EmptyString |}.
Proof.
  unfold without. induction s as [|c s IH]; intros Hne Hlf Hcr; [now elim Hne|].
  cbn [list_ascii_of_string] in *.
  assert (Hc : accepts Dot c = true).
  { cbn [accepts].
    destruct (Ascii.eqb_spec c LF) as [->|_]; [elim Hlf; now left|].
    destruct (Ascii.eqb_spec c CR) as [->|_]; [elim Hcr; now left|].
    reflexivity. }
  change (match_here [Many Dot; Close 1] (String c s) g)
    with (if accepts Dot c
          then match match_here [Many Dot; Close 1] s g with
               | Some g' => Some g'
               | None => match_here [Close 1] s g
               end
          else None).
  rewrite Hc. destruct s as [|c' s].
  - reflexivity.
  - rewrite IH; [reflexivity|discriminate| |]; intros Hin; [apply Hlf|apply Hcr];
      now right.
Qed.

Lemma match_one (k : cls) (r : list item) (c : ascii) (s : string) (g : captures) :
  match_here (One k :: r) (String c s) g
  = if accepts k c then match_here r s g else None.
Proof. reflexivity. Qed.

Lemma tail_on_branch (branch rest : string) (g : captures) :
  branch <> "" -> without "/"%char branch ->
  match_here tail_items ("/" ++ branch ++ "/" ++ rest) g
  = match_here [Many Dot; Close 1] rest
      {| g_start := Some rest; g_end := None |}.
Proof.
  intros Hb Hbs. unfold tail_items. cbn [append].
  rewrite match_one. cbn [accepts]. rewrite Ascii.eqb_refl.
  rewrite many_not_slash by assumption. reflexivity.
Qed.

Lemma substring_whole (s : string) : substring 0 (String.length s) s = s.
Proof. induction s as [|c s IH]; cbn; [reflexivity|now rewrite IH]. Qed.

Lemma first_piece (path query : string) :
  without "?"%char path ->
  query = "" \/ (exists q, query = String "?" q) ->
  hd EmptyString (split "?"%char (path ++ query)) = path.
Proof.
  intros Hpath [->|[q ->]].
  - assert (E : path ++ "" = path) by (clear; induction path; cbn; congruence).
    rewrite E, split_absent by exact Hpath. reflexivity.
  - rewrite split_first by exact Hpath. reflexivity.
Qed.

(** X12: for a handle whose names hold no character of the pattern
    syntax, the URL of its own repository gives what follows the first
    segment after the repository name, up to the first question mark.
    That segment is taken for the branch; of a branch name with a slash
    only the part before the slash is, and the rest comes back as the
    start of the path.  A question mark right after the slash gives the
    empty path, not null. *)
Theorem getPathFromDownloadUrl_own_repository (h : GitStorage)
    (branch path query : string) :
  plain (owner h) -> plain (repo h) ->
  branch <> "" -> without "/"%char branch ->
  path ++ query <> "" ->
  without LF (path ++ query) -> without CR (path ++ query) ->
  without "?"%char path ->
  query = "" \/ (exists q, query = String "?" q) ->
  getPathFromDownloadUrl h
    (raw_url (owner h) (repo h) (branch ++ "/" ++ path ++ query))
  = Some (Ok (Some path)).
Proof.
  intros Hpo Hpr Hb Hbs Hne Hlf Hcr Hq Hquery.
  unfold getPathFromDownloadUrl. rewrite (compile_pattern h Hpo Hpr).
  erewrite own_url_found.
  2:{ rewrite tail_on_branch by assumption.
      apply many_dot_to_end; assumption. }
  unfold group1. cbn [g_start g_end String.length].
  rewrite Nat.sub_0_r, substring_whole, first_piece by assumption.
  reflexivity.
Qed.

(** X13: for a handle whose names hold no character of the pattern
    syntax and no slash, the URL of any other owner or repository gives
    null, whatever follows the names (names and rest without colon, the
    owner and repository of the URL without slash). *)
Theorem getPathFromDownloadUrl_other_repository (h : GitStorage)
    (o r rest : string) :
  plain (owner h) -> plain (repo h) ->
  without "/"%char (owner h) -> without "/"%char (repo h) ->
  without "/"%char o -> without "/"%char r ->
  without ":"%char o -> without ":"%char r -> without ":"%char rest ->
  (o, r) <> (owner h, repo h) ->
  getPathFromDownloadUrl h (raw_url o r rest) = Some (Ok None).
Proof.
  intros Hpo Hpr Hoh Hrh Ho Hr Hco Hcr Hcrest Hdiff.
  unfold getPathFromDownloadUrl. rewrite (compile_pattern h Hpo Hpr).
  enough (Hnone : search (pattern_items h) (raw_url o r rest) = None)
    by now rewrite Hnone.
  pose proof (other_names_no_match h o r rest Hoh Hrh Ho Hr Hdiff) as H0.
  unfold raw_url in *. cbn [append] in *.
  rewrite search_step by exact H0.
  do 33 (rewrite search_step by reflexivity).
  apply search_without_colon.
  apply without_append; [exact Hco|].
  apply (without_append _ "/"); [unfold without; cbn; intros [E|[]]; discriminate E|].
  apply without_append; [exact Hcr|].
  apply (without_append _ "/"); [unfold without; cbn; intros [E|[]]; discriminate E|].
  exact Hcrest.
Qed.

(** X14: a URL of the handle's own repository that ends after the slash
    of the branch has no path to give: the answer is null. *)
Theorem getPathFromDownloadUrl_without_path (h : GitStorage) (branch : string) :
  plain (owner h) -> plain (repo h) ->
  without ":"%char (owner h) -> without ":"%char (repo h) ->
  branch <> "" -> without "/"%char branch -> without ":"%char branch ->
  getPathFromDownloadUrl h (raw_url (owner h) (repo h) (branch ++ "/"))
  = Some (Ok None).
Proof.
  intros Hpo Hpr Hco Hcr Hb Hbs Hbc.
  unfold getPathFromDownloadUrl. rewrite (compile_pattern h Hpo Hpr).
  enough (Hnone : search (pattern_items h)
                    (raw_url (owner h) (repo h) (branch ++ "/")) = None)
    by now rewrite Hnone.
  assert (H0 : match_here (pattern_items h)
                 (raw_url (owner h) (repo h) (branch ++ "/")) no_captures = None).
  { unfold pattern_items, raw_url. rewrite !match_lits.
    change (branch ++ "/") with (branch ++ "/" ++ "").
    rewrite tail_on_branch by assumption. reflexivity. }
  unfold raw_url in *. cbn [append] in *.
  rewrite search_step by exact H0.
  do 33 (rewrite search_step by reflexivity).
  apply search_without_colon.
  apply without_append; [exact Hco|].
  apply (without_append _ "/"); [unfold without; cbn; intros [E|[]]; discriminate E|].
  apply without_append; [exact Hcr|].
  apply (without_append _ "/"); [unfold without; cbn; intros [E|[]]; discriminate E|].
  apply without_append; [exact Hbc|].
  unfold without; cbn; intros [E|[]]; discriminate E.
Qed.

End MoreUrl.

(** ** The conversions at their edges *)

Section MoreConversions.

(** X15: line breaks, LF or CR LF, put into a text at any places never
    change what [base64ToBlob] gives for it, bytes or error. *)
Theorem base64ToBlob_ignores_line_breaks (text broken : string) :
  without LF text -> without CR text ->
  line_broken text broken ->
  base64ToBlob broken = base64ToBlob text.
Proof.
  intros Hlf Hcr Hbroken. unfold base64ToBlob.
  rewrite (replace_newlines_line_broken text broken Hbroken Hlf Hcr).
  rewrite (replace_newlines_line_broken text text (line_broken_refl text) Hlf Hcr).
  reflexivity.
Qed.

Lemma replace_newlines_cons (x : ascii) (s : string) :
  replace_newlines (String x s)
  = if Ascii.eqb x LF then replace_newlines s
    else match s with
         | String y s' =>
             if Ascii.eqb x CR && Ascii.eqb y LF then replace_newlines s'
             else String x (replace_newlines s)
         | EmptyString => String x EmptyString
         end.
Proof. reflexivity. Qed.

Lemma replace_newlines_keeps (c : ascii) (s : string) :
  c <> LF -> c <> CR ->
  In c (list_ascii_of_string s) ->
  In c (list_ascii_of_string (replace_newlines s)).
Proof.
  intros Hlf Hcr.
  enough (H : (In c (list_ascii_of_string s) ->
               In c (list_ascii_of_string (replace_newlines s)))
              /\ forall x, In c (list_ascii_of_string (String x s)) ->
                           In c (list_ascii_of_string (replace_newlines (String x s))))
    by apply H.
  induction s as [|y s [IH0 IH1]].
  - split; [auto|]. intros x Hin. rewrite replace_newlines_cons.
    destruct (Ascii.eqb_spec x LF) as [->|_]; [|exact Hin].
    destruct Hin as [E|[]]. now elim Hlf.
  - split; [apply IH1|].
    intros x Hin. rewrite replace_newlines_cons.
    cbn [list_ascii_of_string In] in Hin.
    destruct (Ascii.eqb_spec x LF) as [->|_].
    + destruct Hin as [E|Hin]; [now elim Hlf|]. now apply IH1.
    + destruct (Ascii.eqb_spec x CR) as [->|_];
        [destruct (Ascii.eqb_spec y LF) as [->|_]|]; cbn [andb].
      * destruct Hin as [E|[E|Hin]]; [now elim Hcr|now elim Hlf|].
        now apply IH0.
      * destruct Hin as [E|Hin]; [now elim Hcr|]. right. now apply IH1.
      * destruct Hin as [E|Hin]; [now left|]. right. now apply IH1.
Qed.

Lemma strip_padding_keeps (c : ascii) (l : list ascii) :
  is_pad c = false -> In c l -> In c (strip_padding l).
Proof.
  intros Hc Hin. unfold strip_padding.
  assert (Hrev : In c (rev l)) by now apply in_rev in Hin.
  destruct (rev l) as [|c1 [|c2 r]] eqn:E; [exact Hin| |].
  - destruct (is_pad c1) eqn:E1; [|exact Hin].
    destruct Hrev as [<-|[]]. congruence.
  - destruct (is_pad c1) eqn:E1; [|exact Hin].
    destruct Hrev as [<-|Hrev]; [congruence|].
    destruct (is_pad c2) eqn:E2.
    + destruct Hrev as [<-|Hrev]; [congruence|]. now apply in_rev in Hrev.
    + apply in_rev. now rewrite rev_involutive.
Qed.

Lemma indices_foreign (c : ascii) (l : list ascii) :
  b64_index c = None -> In c l -> indices l = None.
Proof.
  intros Hc. induction l as [|x l IH]; intros Hin; [destruct Hin|].
  cbn [indices]. destruct Hin as [->|Hin].
  - now rewrite Hc.
  - rewrite (IH Hin). now destruct (b64_index x).
Qed.

(** X16: a text that holds a character which is neither of the base64
    alphabet, nor padding, nor white space makes [base64ToBlob] throw the
    error of [atob]; it never answers with bytes for such a text. *)
Theorem base64ToBlob_rejects_foreign_character (text : string) (c : ascii) :
  In c (list_ascii_of_string text) ->
  b64_index c = None -> is_pad c = false -> is_ascii_whitespace c = false ->
  base64ToBlob text = Throw InvalidCharacterError.
Proof.
  intros Hin Hindex Hpad Hws.
  assert (Hlf : c <> LF) by (intros ->; discriminate Hws).
  assert (Hcr : c <> CR) by (intros ->; discriminate Hws).
  pose proof (replace_newlines_keeps c text Hlf Hcr Hin) as Hkept.
  unfold base64ToBlob, atob.
  set (l := filter _ _).
  assert (Hl : In c l).
  { apply filter_In. split; [exact Hkept|]. now rewrite Hws. }
  set (l' := if Nat.eqb _ _ then strip_padding l else l).
  assert (Hl' : In c l').
  { unfold l'. destruct (Nat.eqb _ _); [now apply strip_padding_keeps|exact Hl]. }
  destruct (Nat.eqb (Nat.modulo (length l') 4) 1); [reflexivity|].
  now rewrite (indices_foreign c l' Hindex Hl').
Qed.

(** X17: [fileToBase64] takes what stands between the first and the
    second comma of the data URL.  For a file whose media type holds a
    comma that is the end of the media type with ";base64", not the
    payload. *)
Theorem fileToBase64_comma_in_type (file : File) (bs : list N) (a b : string) :
  file_bytes file = Some bs ->
  file_type file = a ++ String ","%char b ->
  without ","%char a -> without ","%char b ->
  fileToBase64 file = Ok (b ++ ";base64").
Proof.
  intros Hread Htype Ha Hb. unfold fileToBase64, readAsDataURL.
  rewrite Hread, Htype.
  assert (E : "data:" ++ (a ++ String ","%char b) ++ ";base64," ++ base64_encode bs
              = ("data:" ++ a)
                ++ String ","%char
                     ((b ++ ";base64") ++ String ","%char (base64_encode bs))).
  { rewrite !append_assoc. reflexivity. }
  rewrite E. clear E.
  rewrite split_first.
  2:{ rewrite list_ascii_of_append. intros Hin. apply in_app_or in Hin.
      destruct Hin as [Hin|Hin]; [|now apply Ha].
      cbn in Hin. repeat (destruct Hin as [Hin|Hin]; [discriminate Hin|]).
      exact Hin. }
  rewrite split_first.
  2:{ rewrite list_ascii_of_append. intros Hin. apply in_app_or in Hin.
      destruct Hin as [Hin|Hin]; [now apply Hb|].
      cbn in Hin. repeat (destruct Hin as [Hin|Hin]; [discriminate Hin|]).
      exact Hin. }
  cbn [nth_error]. f_equal. cbn [Js.or].
  destruct b; reflexivity.
Qed.

End MoreConversions.

(** ** UUIDs *)

Section Uuid.

Variable pkg : uuid_package.


End Uuid.

(** ** The further properties on concrete inputs *)

Section MoreRuns.

Ltac not_in_word :=
  let H := fresh in
  unfold without; cbn; intros H;
  repeat (destruct H as [H|H]; [discriminate H|]); exact H.

Ltac plain_word := solve [unfold plain; cbn; repeat constructor].

(** X2 at a path the store does not hold: the read fails with 404. *)
Lemma saveFile_blind_probe_creates_sample :
  exists p,
    issued (Sample.start [("a.txt", "abc")] true)
      (snd (saveFile Sample.api Sample.handle "AQID" "b.txt" None None false
              (Sample.start [("a.txt", "abc")] true)))
    = [ReposGetContent (probe_params Sample.handle "b.txt" None);
       ReposCreateOrUpdateFileContents p]
    /\ param "message" p = Some "Create b.txt"
    /\ param "sha" p = None
    /\ param "content" p = Some "AQID".
Proof.
  apply (saveFile_blind_probe_creates Sample.api Sample.handle "AQID" "b.txt" None
           (Sample.start [("a.txt", "abc")] true)).
  exact I.
Defined.

(** X3 at a path the store holds, with a message of the caller. *)
Lemma saveFile_message_verbatim_sample :
  exists p,
    issued (Sample.start [("a.txt", "abc")] true)
      (snd (saveFile Sample.api Sample.handle "AQID" "a.txt" (Some "Upload a.txt")
              None false (Sample.start [("a.txt", "abc")] true)))
    = [ReposGetContent (probe_params Sample.handle "a.txt" None);
       ReposCreateOrUpdateFileContents p]
    /\ param "message" p = Some "Upload a.txt"
    /\ param "sha" p = Some "abc".
Proof.
  apply (saveFile_message_verbatim Sample.api Sample.handle "AQID" "a.txt"
           "Upload a.txt" None (Sample.start [("a.txt", "abc")] true) (Some "abc")).
  reflexivity.
Defined.

(** X6 at a path the store does not hold. *)
Lemma deleteFile_blind_probe_not_found_sample :
  fst (deleteFile Sample.api Sample.handle "b.txt" None
         (Sample.start [("a.txt", "abc")] true))
  = Throw (Error "File not found")
  /\ classify (Error "File not found") = NotFound
  /\ issued (Sample.start [("a.txt", "abc")] true)
       (snd (deleteFile Sample.api Sample.handle "b.txt" None
               (Sample.start [("a.txt", "abc")] true)))
     = [ReposGetContent (probe_params Sample.handle "b.txt" None)]
  /\ world (snd (deleteFile Sample.api Sample.handle "b.txt" None
                   (Sample.start [("a.txt", "abc")] true)))
     = {| Sample.files := [("a.txt", "abc")]; Sample.writable := true |}.
Proof.
  apply (deleteFile_blind_probe_not_found Sample.api Sample.handle "b.txt" None
           (Sample.start [("a.txt", "abc")] true)).
  exact I.
Defined.

(** X8 at the deletion request of [deleteFile]. *)
Lemma requests_name_own_repository_sample :
  param "owner"
    (call_params (ReposDeleteFile (delete_params Sample.handle "a.txt" None "abc")))
  = Some "octo"
  /\ param "repo"
       (call_params (ReposDeleteFile (delete_params Sample.handle "a.txt" None "abc")))
     = Some "store".
Proof.
  apply (requests_name_own_repository Sample.api Sample.handle
           (DeleteFile "a.txt" None) (Sample.start [("a.txt", "abc")] true)).
  right. left. reflexivity.
Defined.

(** X12 at a URL with a query, and at one whose branch name has a slash. *)
Lemma getPathFromDownloadUrl_own_repository_sample :
  getPathFromDownloadUrl (constructor "octo" "store" None)
    "https://raw.githubusercontent.com/octo/store/main/folder/file.txt?token=XYZ"
  = Some (Ok (Some "folder/file.txt"))
  /\ getPathFromDownloadUrl (constructor "octo" "store" None)
       "https://raw.githubusercontent.com/octo/store/feature/x/file.txt"
     = Some (Ok (Some "x/file.txt")).
Proof.
  split.
  - apply (getPathFromDownloadUrl_own_repository (constructor "octo" "store" None)
             "main" "folder/file.txt" "?token=XYZ");
      [plain_word | plain_word | discriminate | not_in_word | discriminate
      | not_in_word | not_in_word | not_in_word | ].
    right. eexists. reflexivity.
  - apply (getPathFromDownloadUrl_own_repository (constructor "octo" "store" None)
             "feature" "x/file.txt" "");
      [plain_word | plain_word | discriminate | not_in_word | discriminate
      | not_in_word | not_in_word | not_in_word | ].
    left. reflexivity.
Defined.

(** X13 at the URL of another repository of the same owner. *)
Lemma getPathFromDownloadUrl_other_repository_sample :
  getPathFromDownloadUrl (constructor "octo" "store" None)
    "https://raw.githubusercontent.com/octo/other/main/folder/file.txt"
  = Some (Ok None).
Proof.
  apply (getPathFromDownloadUrl_other_repository (constructor "octo" "store" None)
           "octo" "other" "main/folder/file.txt");
    [plain_word | plain_word | not_in_word | not_in_word | not_in_word
    | not_in_word | not_in_word | not_in_word | not_in_word | discriminate].
Defined.

(** X14 at a URL that ends with the branch. *)
Lemma getPathFromDownloadUrl_without_path_sample :
  getPathFromDownloadUrl (constructor "octo" "store" None)
    "https://raw.githubusercontent.com/octo/store/main/"
  = Some (Ok None).
Proof.
  apply (getPathFromDownloadUrl_without_path (constructor "octo" "store" None)
           "main");
    [plain_word | plain_word | not_in_word | not_in_word | discriminate
    | not_in_word | not_in_word].
Defined.

(** X15 at a text of three bytes and at a text [atob] refuses. *)
Lemma base64ToBlob_ignores_line_breaks_sample :
  base64ToBlob (String "A" (String "Q" (String CR (String LF "ID"))))
  = base64ToBlob "AQID"
  /\ base64ToBlob (String "A" (String LF "*")) = base64ToBlob "A*".
Proof.
  split.
  - apply (base64ToBlob_ignores_line_breaks "AQID");
      [not_in_word | not_in_word | repeat constructor].
  - apply (base64ToBlob_ignores_line_breaks "A*");
      [not_in_word | not_in_word | repeat constructor].
Defined.

(** X16 at a text with an asterisk. *)
Lemma base64ToBlob_rejects_foreign_character_sample :
  base64ToBlob "AQ*D" = Throw InvalidCharacterError.
Proof.
  apply (base64ToBlob_rejects_foreign_character "AQ*D" "*"%char).
  - cbn. auto.
  - reflexivity.
  - reflexivity.
  - reflexivity.
Defined.

(** X17 at a file of one byte whose media type is "a,b". *)
Lemma fileToBase64_comma_in_type_sample :
  fileToBase64 {| file_type := "a,b"; file_bytes := Some [1%N] |}
  = Ok "b;base64".
Proof.
  apply (fileToBase64_comma_in_type
           {| file_type := "a,b"; file_bytes := Some [1%N] |} [1%N] "a" "b").
  - reflexivity.
  - reflexivity.
  - not_in_word.
  - not_in_word.
Defined.

End MoreRuns.
